(** * The magnetic grid of [src/main.ts]

    A shallow embedding of the grid builder, the pointer tracker and the
    animation driver of [src/main.ts], with the properties its
    specification states about them.

    Numbers.  Every TypeScript [number] of the program is read as a real
    number: [+], [-], [*], [/], [Math.sqrt], [Math.cos], [Math.sin],
    [Math.abs] and the comparisons are the exact operations of [R].  The
    rounding of IEEE doubles, NaN and the infinities are not modelled.

    Objects.  A DOM element is a record that carries the identity of its
    node; the child list of the container [#bg] holds node identities, and
    the data of an element lives in the grid point that references it (the
    program reaches an element only through its grid point).

    Host.  The viewport size, the allocation of DOM nodes and the queue of
    [requestAnimationFrame] are explicit fields of the state. *)

From Stdlib Require Import Reals.Reals Reals.Zfloor.
From Stdlib Require Import Lra Lia ZArith List Bool String.
Import ListNotations.

Open Scope R_scope.

(** ** Constants (main.ts, lines 3-6) *)

Definition CELL_SIZE : R := 50.
Definition PULL_DISTANCE : R := 600.
Definition PULL_STRENGTH : R := 0.4.
Definition EPSILON : R := 0.01.

(** ** Comparisons as booleans *)

(** [a > b] *)
Definition Rgtb (a b : R) : bool := if Rlt_dec b a then true else false.

(** [a < b] *)
Definition Rltb (a b : R) : bool := if Rlt_dec a b then true else false.

(** [a >= b] *)
Definition Rgeb (a b : R) : bool := if Rle_dec b a then true else false.

(** ** [Math.atan2] and [Math.ceil]

    [Math_atan2 y x] is the angle of the point [(x, y)], in [(-PI, PI]];
    at the origin it is 0, as [Math.atan2(+0, +0)] is. *)

Definition Math_atan2 (y x : R) : R :=
  if Rltb 0 x then atan (y / x)
  else if Rltb x 0 then
         if Rgeb y 0 then atan (y / x) + PI else atan (y / x) - PI
       else if Rltb 0 y then PI / 2
            else if Rltb y 0 then - (PI / 2)
                 else 0.

Definition Math_ceil (r : R) : Z := Zceil r.

(** ** Data model (main.ts, lines 8-23) *)

(** The part of an [HTMLElement] the program reads or writes. [transform]
    is the pair of lengths of [translate(..px, ..px)]; [dataset_ox] and
    [dataset_oy] are the entries ['ox'] and ['oy'] of [dataset], absent
    until the first write. *)
Record Element : Type := mkElement {
  node : nat;
  textContent : string;
  position : string;
  left : R;
  top : R;
  className : string;
  transform : option (R * R);
  dataset_ox : option R;
  dataset_oy : option R
}.

Record GridPoint : Type := mkGridPoint {
  x : R;
  y : R;
  offsetX : R;
  offsetY : R;
  element : Element
}.

Record State : Type := mkState {
  mouseX : R;
  mouseY : R;
  lastMouseX : R;
  lastMouseY : R;
  isAnimating : bool;
  rafId : nat;
  gridPoints : list GridPoint;
  (** children of [#bg], by node identity *)
  gridContainer : list nat;
  (** host: [window.innerWidth], [window.innerHeight] *)
  innerWidth : R;
  innerHeight : R;
  (** host: identity of the next node [document.createElement] returns *)
  nextNode : nat;
  (** host: last handle [requestAnimationFrame] returned, and the handles
      of the callbacks (all of them [animate]) that wait for a frame *)
  rafLast : nat;
  rafPending : list nat
}.

(** The state when the module starts to run (lines 16-23): nothing is
    scheduled, [#bg] has the children the page gave it. *)
Definition initial (w h : R) (children : list nat) (fresh : nat) : State :=
  mkState 0 0 0 0 false 0 [] children w h fresh 0 [].

(** ** Record updates *)

Definition set_mouse (mx my : R) (s : State) : State :=
  mkState mx my (lastMouseX s) (lastMouseY s) (isAnimating s) (rafId s)
    (gridPoints s) (gridContainer s) (innerWidth s) (innerHeight s)
    (nextNode s) (rafLast s) (rafPending s).

Definition set_lastMouse (lx ly : R) (s : State) : State :=
  mkState (mouseX s) (mouseY s) lx ly (isAnimating s) (rafId s)
    (gridPoints s) (gridContainer s) (innerWidth s) (innerHeight s)
    (nextNode s) (rafLast s) (rafPending s).

Definition set_isAnimating (b : bool) (s : State) : State :=
  mkState (mouseX s) (mouseY s) (lastMouseX s) (lastMouseY s) b (rafId s)
    (gridPoints s) (gridContainer s) (innerWidth s) (innerHeight s)
    (nextNode s) (rafLast s) (rafPending s).

Definition set_rafId (h : nat) (s : State) : State :=
  mkState (mouseX s) (mouseY s) (lastMouseX s) (lastMouseY s) (isAnimating s) h
    (gridPoints s) (gridContainer s) (innerWidth s) (innerHeight s)
    (nextNode s) (rafLast s) (rafPending s).

Definition set_gridPoints (pts : list GridPoint) (s : State) : State :=
  mkState (mouseX s) (mouseY s) (lastMouseX s) (lastMouseY s) (isAnimating s)
    (rafId s) pts (gridContainer s) (innerWidth s) (innerHeight s)
    (nextNode s) (rafLast s) (rafPending s).

Definition set_gridContainer (c : list nat) (s : State) : State :=
  mkState (mouseX s) (mouseY s) (lastMouseX s) (lastMouseY s) (isAnimating s)
    (rafId s) (gridPoints s) c (innerWidth s) (innerHeight s)
    (nextNode s) (rafLast s) (rafPending s).

Definition set_viewport (w h : R) (s : State) : State :=
  mkState (mouseX s) (mouseY s) (lastMouseX s) (lastMouseY s) (isAnimating s)
    (rafId s) (gridPoints s) (gridContainer s) w h
    (nextNode s) (rafLast s) (rafPending s).

Definition set_nextNode (n : nat) (s : State) : State :=
  mkState (mouseX s) (mouseY s) (lastMouseX s) (lastMouseY s) (isAnimating s)
    (rafId s) (gridPoints s) (gridContainer s) (innerWidth s) (innerHeight s)
    n (rafLast s) (rafPending s).

Definition set_raf (last : nat) (pending : list nat) (s : State) : State :=
  mkState (mouseX s) (mouseY s) (lastMouseX s) (lastMouseY s) (isAnimating s)
    (rafId s) (gridPoints s) (gridContainer s) (innerWidth s) (innerHeight s)
    (nextNode s) last pending.

(** ** Host operations *)

(** [requestAnimationFrame(animate)]: a new handle, queued behind the
    callbacks that already wait. *)
Definition requestAnimationFrame (s : State) : nat * State :=
  let h := S (rafLast s) in
  (h, set_raf h (rafPending s ++ [h]) s).

(** [cancelAnimationFrame(h)]: the callback of handle [h] no longer
    waits; nothing happens when it does not wait. *)
Definition cancelAnimationFrame (h : nat) (s : State) : State :=
  set_raf (rafLast s) (remove Nat.eq_dec h (rafPending s)) s.

(** ** generateGrid (main.ts, lines 31-52) *)

(** The body of the inner loop (lines 37-49): one element is created,
    appended to the container, and one grid point is pushed. *)
Definition push_cell (cellSize : R) (row col : nat) (s : State) : State :=
  let x := INR col * cellSize in
  let y := INR row * cellSize in
  let element :=
    mkElement (nextNode s) "+" "absolute" x y "grid-point" None None None in
  set_gridPoints (gridPoints s ++ [mkGridPoint x y 0 0 element])
    (set_gridContainer (gridContainer s ++ [node element])
       (set_nextNode (S (nextNode s)) s)).

(** [for (let col = ..; col < colMax; col++)], [todo] iterations left. *)
Fixpoint col_loop (cellSize : R) (row : nat) (todo col : nat) (s : State)
  : State :=
  match todo with
  | O => s
  | S todo' => col_loop cellSize row todo' (S col) (push_cell cellSize row col s)
  end.

(** [for (let row = ..; row < rowMax; row++)], [todo] iterations left. *)
Fixpoint row_loop (cellSize : R) (colMax : nat) (todo row : nat) (s : State)
  : State :=
  match todo with
  | O => s
  | S todo' =>
      row_loop cellSize colMax todo' (S row) (col_loop cellSize row colMax 0 s)
  end.

Definition rowMax (cellSize : R) (s : State) : Z :=
  (Math_ceil (innerHeight s / cellSize) + 1)%Z.

Definition colMax (cellSize : R) (s : State) : Z :=
  (Math_ceil (innerWidth s / cellSize) + 1)%Z.

(** [generateGrid] with the cell size as an argument; the program calls it
    at [CELL_SIZE]. *)
Definition generateGridWith (cellSize : R) (s : State) : State :=
  row_loop cellSize (Z.to_nat (colMax cellSize s))
    (Z.to_nat (rowMax cellSize s)) 0 s.

Definition generateGrid (s : State) : State := generateGridWith CELL_SIZE s.

(** ** animate (main.ts, lines 62-122) *)

(** Line 64. *)
Definition mouseMoved (s : State) : bool :=
  Rgtb (Rabs (mouseX s - lastMouseX s)) EPSILON
  || Rgtb (Rabs (mouseY s - lastMouseY s)) EPSILON.

(** [parseFloat(dataset[k] || '0')]: the number last written under [k],
    0 while nothing was written. *)
Definition parseFloat_or_0 (d : option R) : R :=
  match d with
  | Some v => v
  | None => 0
  end.

(** Lines 67-69. *)
Definition distance_to (mx my : R) (point : GridPoint) : R :=
  let dx := mx - (x point + CELL_SIZE / 2) in
  let dy := my - (y point + CELL_SIZE / 2) in
  sqrt (dx * dx + dy * dy).

(** Lines 71-79. *)
Definition target (mx my : R) (point : GridPoint) : R * R :=
  let dx := mx - (x point + CELL_SIZE / 2) in
  let dy := my - (y point + CELL_SIZE / 2) in
  let distance := sqrt (dx * dx + dy * dy) in
  if Rltb distance PULL_DISTANCE then
    let angle := Math_atan2 dy dx in
    let force := (1 - distance / PULL_DISTANCE) * PULL_STRENGTH in
    (cos angle * force * CELL_SIZE, sin angle * force * CELL_SIZE)
  else (0, 0).

(** Lines 84-85, one axis. *)
Definition ease (offset target : R) : R := offset + (target - offset) * 0.2.

(** Lines 88-96, one axis. *)
Definition settle (far : bool) (newOffset : R) : R :=
  if far then
    let decay := 0.9 in
    if Rgtb (Rabs newOffset) EPSILON then newOffset * decay else 0
  else
    if Rgtb (Rabs newOffset) EPSILON then newOffset else 0.

(** Lines 103-105: the write to the DOM. *)
Definition write_transform (ox oy : R) (e : Element) : Element :=
  mkElement (node e) (textContent e) (position e) (left e) (top e)
    (className e) (Some (ox, oy)) (Some ox) (Some oy).

(** The body of the [forEach] (lines 67-108) for one point: the point
    after it, and whether it wrote to the DOM (in which case line 106 sets
    [anyChange]). *)
Definition animate_point (moved : bool) (mx my : R) (point : GridPoint)
  : GridPoint * bool :=
  let distance := distance_to mx my point in
  let '(targetX, targetY) := target mx my point in
  if moved || Rgtb (Rabs (offsetX point)) EPSILON
     || Rgtb (Rabs (offsetY point)) EPSILON then
    let newOffsetX := ease (offsetX point) targetX in
    let newOffsetY := ease (offsetY point) targetY in
    let far := Rgeb distance PULL_DISTANCE in
    let ox := settle far newOffsetX in
    let oy := settle far newOffsetY in
    let e := element point in
    if Rgtb (Rabs (ox - parseFloat_or_0 (dataset_ox e))) EPSILON
       || Rgtb (Rabs (oy - parseFloat_or_0 (dataset_oy e))) EPSILON then
      (mkGridPoint (x point) (y point) ox oy (write_transform ox oy e), true)
    else
      (mkGridPoint (x point) (y point) ox oy e, false)
  else (point, false).

(** [gridPoints.forEach(...)], threading [anyChange]. *)
Fixpoint forEach_point (moved : bool) (mx my : R) (points : list GridPoint)
  (anyChange : bool) : list GridPoint * bool :=
  match points with
  | [] => ([], anyChange)
  | point :: rest =>
      let '(point', wrote) := animate_point moved mx my point in
      let '(rest', anyChange') :=
        forEach_point moved mx my rest (if wrote then true else anyChange) in
      (point' :: rest', anyChange')
  end.

Definition animate (s : State) : State :=
  let moved := mouseMoved s in
  let '(points, anyChange) :=
    forEach_point moved (mouseX s) (mouseY s) (gridPoints s) false in
  let s1 := set_gridPoints points s in
  let s2 := set_lastMouse (mouseX s1) (mouseY s1) s1 in
  if negb anyChange && negb moved then
    cancelAnimationFrame (rafId s2) (set_isAnimating false s2)
  else
    let '(h, s3) := requestAnimationFrame s2 in
    set_rafId h s3.

(** ** startAnimation (main.ts, lines 128-133) *)

Definition startAnimation (s : State) : State :=
  if negb (isAnimating s) then
    let '(h, s1) := requestAnimationFrame (set_isAnimating true s) in
    set_rafId h s1
  else s.

(** ** Listeners (main.ts, lines 144-168) *)

Definition on_mousemove (clientX clientY : R) (s : State) : State :=
  startAnimation (set_mouse clientX clientY s).

(** [touches] is [e.touches], each touch with its [clientX] and
    [clientY]. *)
Definition on_touchstart (touches : list (R * R)) (s : State) : State :=
  match nth_error touches 0 with
  | Some (clientX, clientY) => startAnimation (set_mouse clientX clientY s)
  | None => s
  end.

(** Lines 163-164. *)
Definition discard_grid (s : State) : State :=
  set_gridPoints [] (set_gridContainer [] s).

Definition on_resize (s : State) : State :=
  let s1 := generateGrid (discard_grid s) in
  if isAnimating s1 then startAnimation s1 else s1.

(** ** The page as a transition system *)

(** The browser runs the callback that waits longest. *)
Definition frame (s : State) : State :=
  match rafPending s with
  | [] => s
  | _ :: rest => animate (set_raf (rafLast s) rest s)
  end.

Inductive Event : Type :=
| Mousemove (clientX clientY : R)
| Touchstart (touches : list (R * R))
| Resize (w h : R)
| Frame.

(** A resize event arrives with the viewport already at its new size. *)
Definition handle (e : Event) (s : State) : State :=
  match e with
  | Mousemove cx cy => on_mousemove cx cy s
  | Touchstart ts => on_touchstart ts s
  | Resize w h => on_resize (set_viewport w h s)
  | Frame => frame s
  end.

Definition run (es : list Event) (s : State) : State :=
  fold_left (fun st e => handle e st) es s.

(** The module's top level (line 137). *)
Definition start (w h : R) (children : list nat) (fresh : nat) : State :=
  generateGrid (initial w h children fresh).

(** ** Notions the properties are stated with *)

(** The marker [generateGrid] creates for the cell [(row, col)], with the
    node [id]. *)
Definition cell (cellSize : R) (row col id : nat) : GridPoint :=
  let x := INR col * cellSize in
  let y := INR row * cellSize in
  mkGridPoint x y 0 0
    (mkElement id "+" "absolute" x y "grid-point" None None None).

(** The markers of a grid of [cols] columns in row-major order, the
    first [n] of them, with the nodes [first], [first + 1], ... *)
Definition cells (cellSize : R) (cols first n : nat) : list GridPoint :=
  map (fun k => cell cellSize (k / cols) (k mod cols) (first + k)) (seq 0 n).

(** Everything but the grid, the container and the node counter is the
    same in [s] and [s']. *)
Definition same_driver (s s' : State) : Prop :=
  mouseX s' = mouseX s /\ mouseY s' = mouseY s /\
  lastMouseX s' = lastMouseX s /\ lastMouseY s' = lastMouseY s /\
  isAnimating s' = isAnimating s /\ rafId s' = rafId s /\
  innerWidth s' = innerWidth s /\ innerHeight s' = innerHeight s /\
  rafLast s' = rafLast s /\ rafPending s' = rafPending s.

(** The two states of the driver.  While it runs, exactly one step waits
    for a frame, the one [rafId] names. *)
Definition Running (s : State) : Prop :=
  isAnimating s = true /\ rafPending s = [rafId s].

Definition Idle (s : State) : Prop :=
  isAnimating s = false /\ rafPending s = [].

(** Every node the page holds was allocated: the nodes of the markers and
    of the children of the container are below the allocation counter. *)
Definition nodes_allocated (s : State) : Prop :=
  Forall (fun point => (node (element point) < nextNode s)%nat) (gridPoints s)
  /\ Forall (fun n => (n < nextNode s)%nat) (gridContainer s).

(** The nodes of the markers of the grid, in order. *)
Definition marker_nodes (s : State) : list nat :=
  map (fun point => node (element point)) (gridPoints s).

(** The rest-position center of a marker. *)
Definition centerX (point : GridPoint) : R := x point + CELL_SIZE / 2.
Definition centerY (point : GridPoint) : R := y point + CELL_SIZE / 2.

(** The length of a marker's displacement. *)
Definition magnitude (point : GridPoint) : R :=
  sqrt (offsetX point * offsetX point + offsetY point * offsetY point).

(** A marker is at rest for the driver when its displacement is within
    [EPSILON] of zero on both axes. *)
Definition settled (point : GridPoint) : Prop :=
  Rabs (offsetX point) <= EPSILON /\ Rabs (offsetY point) <= EPSILON.

(** [n] steps of one marker while the pointer stays at [(mx, my)]: in
    each of them [mouseMoved] is false. *)
Definition hold (mx my : R) (n : nat) (point : GridPoint) : GridPoint :=
  Nat.iter n (fun q => fst (animate_point false mx my q)) point.

(** The marker after [n] steps during which the pointer stays at
    [(mx, my)]: the first step may still see the pointer as moved
    ([moved0]), the later ones do not. *)
Definition held (moved0 : bool) (mx my : R) (n : nat) (point : GridPoint)
  : GridPoint :=
  match n with
  | O => point
  | S k => hold mx my k (fst (animate_point moved0 mx my point))
  end.

(** The number of markers a step writes to the DOM. *)
Definition writes (moved : bool) (mx my : R) (points : list GridPoint) : nat :=
  List.length
    (filter (fun point => snd (animate_point moved mx my point)) points).

(** The out-of-range rule in the words of the specification: the eased
    value is multiplied by 0.9, and the axis is 0 when the magnitude of
    the decayed value is below [EPSILON]. *)
Definition spec_settle_far (eased : R) : R :=
  if Rltb (Rabs (eased * 0.9)) EPSILON then 0 else eased * 0.9.

(** [k] frames in a row, no event between them. *)
Definition frames (k : nat) (s : State) : State := Nat.iter k frame s.

(** ** Concrete markers *)

(** The element of the marker of the first cell, as [generateGrid] makes
    it, and the same element after [(ox, oy)] was written to it. *)
Definition fresh_element : Element :=
  mkElement 0 "+" "absolute" 0 0 "grid-point" None None None.

Definition written_element (ox oy : R) : Element :=
  write_transform ox oy fresh_element.

(** The marker of the first cell, its center at [(25, 25)], displaced by
    [(ox, oy)]. *)
Definition first_marker (ox oy : R) (e : Element) : GridPoint :=
  mkGridPoint 0 0 ox oy e.

(** ** Notions of the further properties *)

(** Line 76: the pull at a given distance from the pointer. *)
Definition pull_force (distance : R) : R :=
  (1 - distance / PULL_DISTANCE) * PULL_STRENGTH.

(** The largest displacement the pull can ask for. *)
Definition FULL_PULL : R := PULL_STRENGTH * CELL_SIZE.

(** The displacement of a marker is no longer than the full pull. *)
Definition within_pull (point : GridPoint) : Prop :=
  offsetX point * offsetX point + offsetY point * offsetY point
  <= FULL_PULL * FULL_PULL.

(** The translation the screen shows for an element: the one last
    written, none before the first write. *)
Definition shownX (e : Element) : R := parseFloat_or_0 (dataset_ox e).
Definition shownY (e : Element) : R := parseFloat_or_0 (dataset_oy e).

(** The cache in [dataset] is the written [transform], and what the
    screen shows is within [EPSILON] of the marker's displacement. *)
Definition in_sync (point : GridPoint) : Prop :=
  let e := element point in
  (transform e = match dataset_ox e, dataset_oy e with
                 | Some ox, Some oy => Some (ox, oy)
                 | _, _ => None
                 end)
  /\ (dataset_ox e = None <-> dataset_oy e = None)
  /\ Rabs (offsetX point - shownX e) <= EPSILON
  /\ Rabs (offsetY point - shownY e) <= EPSILON.

(** What a step must leave alone in a marker: its rest position and
    everything of its element but the transform and its cache. *)
Definition placement (point : GridPoint)
  : R * R * nat * R * R * string * string * string :=
  let e := element point in
  (x point, y point, node e, left e, top e,
   textContent e, position e, className e).



(** The pointer position an event carries, if it carries one. *)
Definition event_pointer (e : Event) : option (R * R) :=
  match e with
  | Mousemove clientX clientY => Some (clientX, clientY)
  | Touchstart touches => nth_error touches 0
  | Resize _ _ => None
  | Frame => None
  end.

(** The position of the last event of [es] that carries one, [start]
    when none does. *)
Definition last_pointer (es : list Event) (start : R * R) : R * R :=
  fold_left (fun position e =>
               match event_pointer e with
               | Some position' => position'
               | None => position
               end) es start.

(** The rest positions of the markers, in order. *)
Definition positions (points : list GridPoint) : list (R * R) :=
  map (fun point => (x point, y point)) points.

(** The rest positions of the grid the current viewport asks for. *)
Definition grid_of_viewport (s : State) : list (R * R) :=
  positions
    (cells CELL_SIZE (Z.to_nat (colMax CELL_SIZE s)) 0
       (Z.to_nat (rowMax CELL_SIZE s) * Z.to_nat (colMax CELL_SIZE s))).

(** The nodes of the markers are consecutive allocated nodes, and they
    are the last children of the container, in the order of the grid; the
    children before them are distinct nodes allocated earlier. *)
Definition markers_attached (s : State) : Prop :=
  exists (first n : nat) (others : list nat),
    marker_nodes s = seq first n
    /\ (first + n <= nextNode s)%nat
    /\ gridContainer s = others ++ marker_nodes s
    /\ NoDup others
    /\ Forall (fun k => (k < first)%nat) others.

(** With the pointer on the center the target is (20, 0).  One eased step
    towards it changes the square of the displacement's length by 0.04
    times this quantity: it is positive inside the circle whose diameter
    goes from (-20/9, 0) to (20, 0). *)
Definition pull_gap (point : GridPoint) : R :=
  160 * offsetX point + 400
  - 9 * (offsetX point * offsetX point + offsetY point * offsetY point).

(** * Properties *)

(** ** Comparisons *)

Lemma Rgtb_true (a b : R) : Rgtb a b = true <-> b < a.
Proof.
  unfold Rgtb. destruct (Rlt_dec b a); split; intros; auto; discriminate || lra.
Qed.

Lemma Rgtb_false (a b : R) : Rgtb a b = false <-> a <= b.
Proof.
  unfold Rgtb. destruct (Rlt_dec b a); split; intros; auto; discriminate || lra.
Qed.

Lemma Rltb_true (a b : R) : Rltb a b = true <-> a < b.
Proof.
  unfold Rltb. destruct (Rlt_dec a b); split; intros; auto; discriminate || lra.
Qed.

Lemma Rltb_false (a b : R) : Rltb a b = false <-> b <= a.
Proof.
  unfold Rltb. destruct (Rlt_dec a b); split; intros; auto; discriminate || lra.
Qed.

Lemma Rgeb_true (a b : R) : Rgeb a b = true <-> b <= a.
Proof.
  unfold Rgeb. destruct (Rle_dec b a); split; intros; auto; discriminate || lra.
Qed.

Lemma Rgeb_false (a b : R) : Rgeb a b = false <-> a < b.
Proof.
  unfold Rgeb. destruct (Rle_dec b a); split; intros; auto; discriminate || lra.
Qed.

Lemma Rgeb_negb_Rltb (a b : R) : Rgeb a b = negb (Rltb a b).
Proof.
  unfold Rgeb, Rltb.
  destruct (Rle_dec b a), (Rlt_dec a b); simpl; auto; lra.
Qed.

(** Decides the comparisons of a goal whose operands are numerals. *)
Ltac cmp_arith :=
  unfold Rabs;
  repeat match goal with
    | |- context [Rcase_abs ?v] => destruct (Rcase_abs v)
    end;
  lra.

Ltac decide_cmp :=
  repeat match goal with
    | |- context [Rgtb ?a ?b] =>
        first [ replace (Rgtb a b) with true
                  by (symmetry; apply Rgtb_true; cmp_arith)
              | replace (Rgtb a b) with false
                  by (symmetry; apply Rgtb_false; cmp_arith) ]
    | |- context [Rltb ?a ?b] =>
        first [ replace (Rltb a b) with true
                  by (symmetry; apply Rltb_true; cmp_arith)
              | replace (Rltb a b) with false
                  by (symmetry; apply Rltb_false; cmp_arith) ]
    | |- context [Rgeb ?a ?b] =>
        first [ replace (Rgeb a b) with true
                  by (symmetry; apply Rgeb_true; cmp_arith)
              | replace (Rgeb a b) with false
                  by (symmetry; apply Rgeb_false; cmp_arith) ]
    end.

(** ** The grid builder *)

Section Grid.

Variable cellSize : R.

Lemma push_cell_same_driver (row col : nat) (s : State) :
  same_driver s (push_cell cellSize row col s).
Proof. repeat split. Qed.

Lemma same_driver_refl (s : State) : same_driver s s.
Proof. repeat split. Qed.

Lemma same_driver_trans (s1 s2 s3 : State) :
  same_driver s1 s2 -> same_driver s2 s3 -> same_driver s1 s3.
Proof.
  unfold same_driver. intros H12 H23.
  decompose [and] H12. decompose [and] H23.
  repeat split; congruence.
Qed.

(** The inner loop appends the cells of one row, with consecutive nodes. *)
Lemma col_loop_spec (row : nat) :
  forall (todo col : nat) (s : State),
    let s' := col_loop cellSize row todo col s in
    gridPoints s' =
      gridPoints s
      ++ map (fun j => cell cellSize row (col + j) (nextNode s + j)) (seq 0 todo)
    /\ gridContainer s' =
         gridContainer s ++ map (fun j => (nextNode s + j)%nat) (seq 0 todo)
    /\ nextNode s' = (nextNode s + todo)%nat
    /\ same_driver s s'.
Proof.
  induction todo as [|todo IH]; intros col s; cbv zeta.
  - simpl. rewrite !app_nil_r, Nat.add_0_r. repeat split.
  - destruct (IH (S col) (push_cell cellSize row col s)) as (Hp & Hc & Hn & Hd).
    change (col_loop cellSize row (S todo) col s)
      with (col_loop cellSize row todo (S col) (push_cell cellSize row col s)).
    rewrite Hp, Hc, Hn.
    change (seq 0 (S todo)) with (0%nat :: seq 1 todo).
    rewrite <- seq_shift, !map_cons, !map_map. simpl gridPoints.
    simpl gridContainer. simpl nextNode.
    rewrite <- !app_assoc. simpl app. rewrite !Nat.add_0_r.
    split; [|split; [|split]].
    + do 2 f_equal. apply map_ext. intros j. f_equal; lia.
    + do 2 f_equal. apply map_ext. intros j. lia.
    + lia.
    + exact (same_driver_trans _ _ _ (push_cell_same_driver row col s) Hd).
Qed.

Lemma seq_from (a n : nat) : seq a n = map (Nat.add a) (seq 0 n).
Proof.
  revert a. induction n as [|n IH]; intros a; simpl.
  - reflexivity.
  - rewrite Nat.add_0_r. f_equal.
    rewrite (IH (S a)), (IH 1%nat), map_map.
    apply map_ext. intros k. lia.
Qed.

(** The outer loop appends [todo] rows of [cols] cells. *)
Lemma row_loop_spec (cols : nat) :
  forall (todo row : nat) (s : State),
    let s' := row_loop cellSize cols todo row s in
    gridPoints s' =
      gridPoints s
      ++ map (fun k => cell cellSize (row + k / cols) (k mod cols)
                         (nextNode s + k))
           (seq 0 (todo * cols))
    /\ gridContainer s' =
         gridContainer s
         ++ map (fun k => (nextNode s + k)%nat) (seq 0 (todo * cols))
    /\ nextNode s' = (nextNode s + todo * cols)%nat
    /\ same_driver s s'.
Proof.
  induction todo as [|todo IH]; intros row s; cbv zeta.
  - simpl. rewrite !app_nil_r, Nat.add_0_r.
    repeat split.
  - change (row_loop cellSize cols (S todo) row s)
      with (row_loop cellSize cols todo (S row)
              (col_loop cellSize row cols 0 s)).
    destruct (col_loop_spec row cols 0%nat s) as (Hp1 & Hc1 & Hn1 & Hd1).
    destruct (IH (S row) (col_loop cellSize row cols 0 s))
      as (Hp & Hc & Hn & Hd).
    rewrite Hp, Hc, Hn, Hp1, Hc1, Hn1.
    change (S todo * cols)%nat with (cols + todo * cols)%nat.
    rewrite seq_app, !map_app, <- !app_assoc. simpl (0 + cols)%nat.
    rewrite (seq_from cols (todo * cols)), !map_map.
    split; [|split; [|split]].
    + f_equal. f_equal.
      * apply map_ext_in. intros j Hj. apply in_seq in Hj.
        rewrite Nat.div_small, Nat.mod_small, Nat.add_0_r by lia.
        reflexivity.
      * apply map_ext_in. intros k Hk.
        assert (Hcols : cols <> 0%nat).
        { intros ->. rewrite Nat.mul_0_r in Hk. destruct Hk. }
        replace (cols + k)%nat with (k + 1 * cols)%nat by lia.
        rewrite Nat.div_add, Nat.Div0.mod_add by exact Hcols.
        f_equal; lia.
    + f_equal. f_equal. apply map_ext. intros k. lia.
    + lia.
    + exact (same_driver_trans _ _ _ Hd1 Hd).
Qed.

(** [generateGridWith] appends the cells of the whole grid and leaves the
    pointer and the driver alone. *)
Lemma generateGridWith_spec (s : State) :
  let rows := Z.to_nat (rowMax cellSize s) in
  let cols := Z.to_nat (colMax cellSize s) in
  let s' := generateGridWith cellSize s in
  gridPoints s' =
    gridPoints s ++ cells cellSize cols (nextNode s) (rows * cols)
  /\ gridContainer s' =
       gridContainer s ++ map node (map element
         (cells cellSize cols (nextNode s) (rows * cols)))
  /\ nextNode s' = (nextNode s + rows * cols)%nat
  /\ same_driver s s'.
Proof.
  cbv zeta. unfold generateGridWith, cells.
  destruct (row_loop_spec (Z.to_nat (colMax cellSize s))
              (Z.to_nat (rowMax cellSize s)) 0%nat s) as (Hp & Hc & Hn & Hd).
  rewrite Hp, Hc, Hn, !map_map. simpl.
  repeat split; try apply Hd.
Qed.

End Grid.

Lemma div_nonneg (a c : R) : 0 <= a -> 0 < c -> 0 <= a / c.
Proof.
  intros Ha Hc. unfold Rdiv.
  apply Rmult_le_pos; [exact Ha|].
  left. apply Rinv_0_lt_compat. exact Hc.
Qed.

Lemma Math_ceil_nonneg (r : R) : 0 <= r -> (0 <= Math_ceil r)%Z.
Proof.
  intros Hr. unfold Math_ceil.
  destruct (Zceil_bound r) as [_ Hub].
  apply le_IZR. lra.
Qed.

Lemma Math_ceil_quotient (a b : Z) (c : R) :
  0 < c -> IZR a = IZR b * c -> Math_ceil (IZR a / c) = b.
Proof.
  intros Hc Hab. unfold Math_ceil. apply Zceil_eq.
  rewrite Hab. replace (IZR b * c / c) with (IZR b) by (field; lra). lra.
Qed.

Lemma nth_error_cells (c : R) (cols first n row col : nat) :
  (col < cols)%nat -> (row * cols + col < n)%nat ->
  nth_error (cells c cols first n) (row * cols + col)
  = Some (cell c row col (first + (row * cols + col))).
Proof.
  intros Hcol Hlt. unfold cells.
  rewrite nth_error_map, nth_error_seq.
  destruct (Nat.ltb_spec (row * cols + col) n) as [_|Hge]; [|lia].
  simpl. f_equal.
  rewrite Nat.div_add_l, Nat.div_small, Nat.add_0_r by lia.
  replace (row * cols + col)%nat with (col + row * cols)%nat at 1 by lia.
  rewrite Nat.Div0.mod_add, Nat.mod_small by lia.
  reflexivity.
Qed.

Lemma length_cells (c : R) (cols first n : nat) :
  List.length (cells c cols first n) = n.
Proof. unfold cells. rewrite length_map, length_seq. reflexivity. Qed.

(** C3. For a viewport of width [w >= 0] and height [h >= 0] and a cell
    size [c > 0], the grid builder creates [ceil(h/c)+1] rows and
    [ceil(w/c)+1] columns of markers: their number is the product, and the
    marker of row [row] and column [col] is at [(col*c, row*c)] with zero
    displacement.  At 1000 x 800 with the program's cell size 50 these are
    17 rows, 21 columns and 357 markers. *)
Theorem C3_generateGrid_rows_cols_count :
  forall (c : R) (s : State),
    0 < c -> 0 <= innerWidth s -> 0 <= innerHeight s ->
    let rows := (Math_ceil (innerHeight s / c) + 1)%Z in
    let cols := (Math_ceil (innerWidth s / c) + 1)%Z in
    exists created : list GridPoint,
      gridPoints (generateGridWith c s) = gridPoints s ++ created
      /\ Z.of_nat (List.length created) = (rows * cols)%Z
      /\ (forall row col : Z,
            (0 <= row < rows)%Z -> (0 <= col < cols)%Z ->
            exists point : GridPoint,
              nth_error created (Z.to_nat (row * cols + col)) = Some point
              /\ x point = IZR col * c /\ y point = IZR row * c
              /\ left (element point) = IZR col * c
              /\ top (element point) = IZR row * c
              /\ offsetX point = 0 /\ offsetY point = 0)
      /\ (c = CELL_SIZE -> innerWidth s = 1000 -> innerHeight s = 800 ->
          generateGrid s = generateGridWith c s
          /\ rows = 17%Z /\ cols = 21%Z /\ List.length created = 357%nat).
Proof.
  intros c s Hc Hw Hh rows cols.
  pose proof (Math_ceil_nonneg _ (div_nonneg _ _ Hh Hc)) as Hr0.
  pose proof (Math_ceil_nonneg _ (div_nonneg _ _ Hw Hc)) as Hc0.
  destruct (generateGridWith_spec c s) as (Hp & _ & _ & _).
  fold rows in Hr0. fold cols in Hc0.
  unfold rowMax, colMax in Hp. fold rows cols in Hp.
  exists (cells c (Z.to_nat cols) (nextNode s)
            (Z.to_nat rows * Z.to_nat cols)).
  split; [exact Hp|]. split; [|split].
  - rewrite length_cells. lia.
  - intros row col Hrow Hcol.
    replace (Z.to_nat (row * cols + col))
      with (Z.to_nat row * Z.to_nat cols + Z.to_nat col)%nat by nia.
    rewrite nth_error_cells by nia.
    eexists. split; [reflexivity|].
    simpl. rewrite !INR_IZR_INZ, !Z2Nat.id by lia.
    repeat split.
  - intros -> Hw1000 Hh800. split; [reflexivity|].
    assert (Hr : rows = 17%Z).
    { unfold rows. rewrite Hh800.
      rewrite (Math_ceil_quotient 800 16 CELL_SIZE);
        unfold CELL_SIZE; try lra; reflexivity. }
    assert (Hcl : cols = 21%Z).
    { unfold cols. rewrite Hw1000.
      rewrite (Math_ceil_quotient 1000 20 CELL_SIZE);
        unfold CELL_SIZE; try lra; reflexivity. }
    repeat split; try assumption.
    rewrite length_cells, Hr, Hcl. reflexivity.
Qed.

(** ** One step of one marker *)

(** Splits the absolute values of a goal about numerals or variables and
    closes it by linear arithmetic. *)
Ltac split_Rabs :=
  unfold Rabs in *;
  repeat match goal with
    | |- context [Rcase_abs ?v] => destruct (Rcase_abs v)
    | H : context [Rcase_abs ?v] |- _ => destruct (Rcase_abs v)
    end;
  try lra.

Lemma Rabs_le_iff (v e : R) : Rabs v <= e <-> - e <= v <= e.
Proof. split; intros H; split_Rabs. Qed.

Lemma Rabs_gt_iff (v e : R) : e < Rabs v <-> v < - e \/ e < v.
Proof. split; intros H; split_Rabs. Qed.

Lemma sqrt_ge (b v : R) : 0 <= b -> b * b <= v -> b <= sqrt v.
Proof.
  intros Hb Hv.
  rewrite <- (sqrt_square b Hb).
  apply sqrt_le_1_alt. exact Hv.
Qed.

Lemma target_far (mx my : R) (point : GridPoint) :
  PULL_DISTANCE <= distance_to mx my point -> target mx my point = (0, 0).
Proof.
  intros Hfar. unfold target. fold (distance_to mx my point).
  unfold distance_to in *. cbv zeta in *.
  apply Rltb_false in Hfar. rewrite Hfar. reflexivity.
Qed.

Lemma distance_center (mx my : R) (point : GridPoint) :
  mx = centerX point -> my = centerY point -> distance_to mx my point = 0.
Proof.
  intros -> ->. unfold distance_to, centerX, centerY. cbv zeta.
  replace (_ * _ + _ * _) with 0 by ring.
  apply sqrt_0.
Qed.

Lemma Math_atan2_origin : Math_atan2 0 0 = 0.
Proof. unfold Math_atan2. decide_cmp. reflexivity. Qed.

(** With the pointer on the center, the target is the full pull along
    the x axis. *)
Lemma target_center (mx my : R) (point : GridPoint) :
  mx = centerX point -> my = centerY point ->
  target mx my point = (PULL_STRENGTH * CELL_SIZE, 0).
Proof.
  intros Hx Hy. unfold target.
  pose proof (distance_center mx my point Hx Hy) as Hd.
  unfold distance_to in Hd. cbv zeta in *. rewrite Hd.
  subst mx my. unfold centerX, centerY.
  replace (x point + CELL_SIZE / 2 - (x point + CELL_SIZE / 2)) with 0 by ring.
  replace (y point + CELL_SIZE / 2 - (y point + CELL_SIZE / 2)) with 0 by ring.
  rewrite Math_atan2_origin, cos_0, sin_0.
  unfold PULL_DISTANCE, PULL_STRENGTH, CELL_SIZE.
  decide_cmp. f_equal; lra.
Qed.

(** The settle-skip: with an unmoved pointer a marker at rest is left as
    it is, and nothing is written. *)
Lemma animate_point_skip (mx my : R) (point : GridPoint) :
  settled point -> animate_point false mx my point = (point, false).
Proof.
  intros [Hx Hy]. unfold animate_point.
  destruct (target mx my point) as [tx ty].
  apply Rgtb_false in Hx, Hy. rewrite Hx, Hy. reflexivity.
Qed.

(** What an update that is not skipped leaves in the marker. *)
Lemma animate_point_update (moved : bool) (mx my : R) (point : GridPoint) :
  moved = true \/ EPSILON < Rabs (offsetX point)
  \/ EPSILON < Rabs (offsetY point) ->
  let far := Rgeb (distance_to mx my point) PULL_DISTANCE in
  let point' := fst (animate_point moved mx my point) in
  offsetX point' = settle far (ease (offsetX point) (fst (target mx my point)))
  /\ offsetY point' =
       settle far (ease (offsetY point) (snd (target mx my point))).
Proof.
  intros Hupd. cbv zeta. unfold animate_point.
  destruct (target mx my point) as [tx ty]. simpl fst. simpl snd.
  assert (Hcond : moved || Rgtb (Rabs (offsetX point)) EPSILON
                  || Rgtb (Rabs (offsetY point)) EPSILON = true).
  { destruct Hupd as [-> | [H | H]]; [reflexivity | |];
      apply Rgtb_true in H; rewrite H; auto with bool. }
  rewrite Hcond.
  match goal with |- context [if ?c then _ else _] => destruct c end;
    split; reflexivity.
Qed.

(** A step never moves a marker's rest position nor changes its node. *)
Lemma animate_point_keeps (moved : bool) (mx my : R) (point : GridPoint) :
  let point' := fst (animate_point moved mx my point) in
  x point' = x point /\ y point' = y point
  /\ node (element point') = node (element point).
Proof.
  cbv zeta. unfold animate_point.
  destruct (target mx my point) as [tx ty].
  repeat match goal with |- context [if ?c then _ else _] => destruct c end;
    repeat split.
Qed.

Lemma animate_point_far (moved : bool) (mx my : R) (point : GridPoint) :
  PULL_DISTANCE <= distance_to mx my point ->
  moved = true \/ EPSILON < Rabs (offsetX point)
  \/ EPSILON < Rabs (offsetY point) ->
  let point' := fst (animate_point moved mx my point) in
  offsetX point' = settle true (ease (offsetX point) 0)
  /\ offsetY point' = settle true (ease (offsetY point) 0).
Proof.
  intros Hfar Hupd.
  pose proof (animate_point_update moved mx my point Hupd) as H.
  cbv zeta in *.
  rewrite (target_far _ _ _ Hfar) in H. simpl fst in H. simpl snd in H.
  apply Rgeb_true in Hfar. rewrite Hfar in H. exact H.
Qed.

Lemma first_marker_far (ox oy : R) (e : Element) :
  PULL_DISTANCE <= distance_to 10000 0 (first_marker ox oy e).
Proof.
  unfold distance_to, first_marker, PULL_DISTANCE, CELL_SIZE. simpl.
  apply sqrt_ge; lra.
Qed.

(** C2, as the code has it. For a marker at least [PULL_DISTANCE] from
    the pointer whose update is not skipped, the new displacement on an
    axis is the eased value [offset + (0 - offset) * 0.2] times 0.9 when
    the magnitude of the eased value, before the decay, exceeds
    [EPSILON], and exactly 0 otherwise. *)
Theorem C2_far_snap_before_decay :
  forall (moved : bool) (mx my : R) (point : GridPoint),
    PULL_DISTANCE <= distance_to mx my point ->
    moved = true \/ EPSILON < Rabs (offsetX point)
    \/ EPSILON < Rabs (offsetY point) ->
    let easedX := offsetX point + (0 - offsetX point) * 0.2 in
    let easedY := offsetY point + (0 - offsetY point) * 0.2 in
    let point' := fst (animate_point moved mx my point) in
    (EPSILON < Rabs easedX -> offsetX point' = easedX * 0.9)
    /\ (Rabs easedX <= EPSILON -> offsetX point' = 0)
    /\ (EPSILON < Rabs easedY -> offsetY point' = easedY * 0.9)
    /\ (Rabs easedY <= EPSILON -> offsetY point' = 0).
Proof.
  intros moved mx my point Hfar Hupd easedX easedY point'.
  destruct (animate_point_far moved mx my point Hfar Hupd) as [HX HY].
  fold point' in HX, HY. unfold settle, ease in HX, HY.
  fold easedX in HX. fold easedY in HY.
  repeat split; intros H.
  - apply Rgtb_true in H. rewrite H in HX. exact HX.
  - apply Rgtb_false in H. rewrite H in HX. exact HX.
  - apply Rgtb_true in H. rewrite H in HY. exact HY.
  - apply Rgtb_false in H. rewrite H in HY. exact HY.
Qed.

Lemma C2_far_snap_before_decay_witness :
  let point := first_marker 5 0 fresh_element in
  offsetX (fst (animate_point false 10000 0 point)) = 3.6
  /\ offsetY (fst (animate_point false 10000 0 point)) = 0.
Proof.
  assert (Hupd : false = true \/ EPSILON < Rabs (offsetX (first_marker 5 0 fresh_element))
                 \/ EPSILON < Rabs (offsetY (first_marker 5 0 fresh_element))).
  { right. left. simpl. unfold EPSILON. cmp_arith. }
  destruct (C2_far_snap_before_decay false 10000 0
              (first_marker 5 0 fresh_element)
              (first_marker_far 5 0 fresh_element) Hupd)
    as (Hx & _ & _ & Hy).
  cbv zeta. simpl offsetX in *. simpl offsetY in *. split.
  - rewrite Hx; [lra | unfold EPSILON; cmp_arith].
  - apply Hy. unfold EPSILON. cmp_arith.
Defined.

(** C2, as it is stated, fails: from the displacement 0.013 the eased
    value is 0.0104, above [EPSILON], and the decayed value 0.00936 is
    below it; the code keeps 0.00936 where the stated rule gives 0. *)
Lemma C2_counterexample :
  let point := first_marker 0.013 0 fresh_element in
  let point' := fst (animate_point false 10000 0 point) in
  PULL_DISTANCE <= distance_to 10000 0 point
  /\ EPSILON < Rabs (offsetX point)
  /\ Rabs (ease (offsetX point) 0 * 0.9) < EPSILON
  /\ spec_settle_far (ease (offsetX point) 0) = 0
  /\ offsetX point' = 0.00936
  /\ offsetX point' <> spec_settle_far (ease (offsetX point) 0).
Proof.
  cbv zeta.
  assert (Hfar := first_marker_far 0.013 0 fresh_element).
  assert (Hgt : EPSILON < Rabs (offsetX (first_marker 0.013 0 fresh_element))).
  { simpl. unfold EPSILON. cmp_arith. }
  destruct (animate_point_far false 10000 0 _ Hfar (or_intror (or_introl Hgt)))
    as [HX _].
  assert (Hspec : spec_settle_far
                    (ease (offsetX (first_marker 0.013 0 fresh_element)) 0) = 0).
  { unfold spec_settle_far, ease, EPSILON. simpl. decide_cmp. reflexivity. }
  assert (Hcode : offsetX (fst (animate_point false 10000 0
                                  (first_marker 0.013 0 fresh_element)))
                  = 0.00936).
  { rewrite HX. unfold settle, ease, EPSILON. simpl. decide_cmp. lra. }
  repeat split; try assumption.
  - unfold ease, EPSILON. simpl. cmp_arith.
  - rewrite Hcode, Hspec. lra.
Qed.

(** ** The whole step *)

(** The [forEach] updates every marker in place; [anyChange] is set when
    some marker was written. *)
Lemma forEach_point_spec (moved : bool) (mx my : R) :
  forall (points : list GridPoint) (anyChange : bool),
    forEach_point moved mx my points anyChange
    = (map (fun point => fst (animate_point moved mx my point)) points,
       anyChange
       || existsb (fun point => snd (animate_point moved mx my point)) points).
Proof.
  induction points as [|point rest IH]; intros anyChange; simpl.
  - rewrite orb_false_r. reflexivity.
  - destruct (animate_point moved mx my point) as [point' wrote]. simpl.
    rewrite IH. f_equal.
    destruct wrote, anyChange; reflexivity.
Qed.

Lemma writes_zero (moved : bool) (mx my : R) (points : list GridPoint) :
  writes moved mx my points = 0%nat
  <-> existsb (fun point => snd (animate_point moved mx my point)) points
      = false.
Proof.
  unfold writes. induction points as [|point rest IH]; simpl.
  - split; reflexivity.
  - destruct (snd (animate_point moved mx my point)); simpl.
    + split; discriminate.
    + exact IH.
Qed.

Lemma gridPoints_animate (s : State) :
  gridPoints (animate s)
  = map (fun point =>
           fst (animate_point (mouseMoved s) (mouseX s) (mouseY s) point))
      (gridPoints s).
Proof.
  unfold animate. rewrite forEach_point_spec. simpl orb.
  destruct (negb _ && negb _); reflexivity.
Qed.

(** C4. With the pointer exactly on a marker's rest-position center and
    the marker at zero displacement, the first step that considers the
    pointer moved leaves the marker at [offsetX = 0.2 * 0.4 * 50 = 4] and
    [offsetY = 0]; the direction at distance 0 is [atan2(0, 0) = 0]. *)
Theorem C4_pointer_on_center_first_step :
  forall (s : State) (i : nat) (point : GridPoint),
    nth_error (gridPoints s) i = Some point ->
    mouseMoved s = true ->
    mouseX s = centerX point -> mouseY s = centerY point ->
    offsetX point = 0 -> offsetY point = 0 ->
    distance_to (mouseX s) (mouseY s) point = 0
    /\ Math_atan2 0 0 = 0
    /\ exists point' : GridPoint,
         nth_error (gridPoints (animate s)) i = Some point'
         /\ offsetX point' = 0.2 * PULL_STRENGTH * CELL_SIZE
         /\ offsetX point' = 4
         /\ offsetY point' = 0.
Proof.
  intros s i point Hi Hmoved Hx Hy Hox Hoy.
  split; [apply distance_center; assumption|].
  split; [apply Math_atan2_origin|].
  rewrite gridPoints_animate, nth_error_map, Hi. simpl.
  eexists. split; [reflexivity|].
  rewrite Hmoved.
  destruct (animate_point_update true (mouseX s) (mouseY s) point
              (or_introl eq_refl)) as [HX HY].
  rewrite HX, HY.
  rewrite (target_center _ _ _ Hx Hy), (distance_center _ _ _ Hx Hy).
  rewrite Hox, Hoy. simpl fst. simpl snd.
  unfold settle, ease, PULL_DISTANCE, PULL_STRENGTH, CELL_SIZE, EPSILON.
  decide_cmp. repeat split; lra.
Qed.

Lemma C4_pointer_on_center_first_step_witness :
  let s := mkState 25 25 0 0 true 1 [first_marker 0 0 fresh_element] [0%nat]
             40 40 1 1 [1%nat] in
  exists point' : GridPoint,
    nth_error (gridPoints (animate s)) 0 = Some point'
    /\ offsetX point' = 4 /\ offsetY point' = 0.
Proof.
  cbv zeta.
  destruct (C4_pointer_on_center_first_step
              (mkState 25 25 0 0 true 1 [first_marker 0 0 fresh_element]
                 [0%nat] 40 40 1 1 [1%nat])
              0 (first_marker 0 0 fresh_element)) as (_ & _ & p & Hp & _ & H4 & H0).
  - reflexivity.
  - unfold mouseMoved, EPSILON. simpl. decide_cmp. reflexivity.
  - unfold centerX, CELL_SIZE. simpl. lra.
  - unfold centerY, CELL_SIZE. simpl. lra.
  - reflexivity.
  - reflexivity.
  - exists p. repeat split; assumption.
Defined.

(** A marker is written exactly when its update is not skipped and the
    displacement the update gives differs from the last-written one by
    more than [EPSILON] on an axis. *)
Lemma animate_point_wrote (moved : bool) (mx my : R) (point : GridPoint) :
  let point' := fst (animate_point moved mx my point) in
  snd (animate_point moved mx my point) = true
  <-> (moved = true \/ EPSILON < Rabs (offsetX point)
       \/ EPSILON < Rabs (offsetY point))
      /\ (EPSILON
          < Rabs (offsetX point' - parseFloat_or_0 (dataset_ox (element point)))
          \/ EPSILON
             < Rabs (offsetY point'
                     - parseFloat_or_0 (dataset_oy (element point)))).
Proof.
  cbv zeta. unfold animate_point.
  destruct (target mx my point) as [tx ty].
  destruct moved; simpl orb.
  - match goal with |- context [if ?a || ?b then _ else _] =>
      destruct a eqn:Ha; destruct b eqn:Hb end; simpl;
      rewrite ?Rgtb_true, ?Rgtb_false in *;
      (split; [intros H; try discriminate; auto | intros [_ [H | H]]; auto; lra]).
  - destruct (Rgtb (Rabs (offsetX point)) EPSILON) eqn:Hox;
      destruct (Rgtb (Rabs (offsetY point)) EPSILON) eqn:Hoy; simpl orb; cbv iota;
      try (match goal with |- context [if ?a || ?b then _ else _] =>
             destruct a eqn:Ha; destruct b eqn:Hb end; simpl;
           rewrite ?Rgtb_true, ?Rgtb_false in *;
           (split; [intros H; try discriminate; auto
                   | intros [_ [H | H]]; auto; lra])).
    simpl. rewrite ?Rgtb_true, ?Rgtb_false in *.
    split; [discriminate|].
    intros [[H | [H | H]] _]; [discriminate | lra | lra].
Qed.

Lemma animate_point_element (moved : bool) (mx my : R) (point : GridPoint) :
  snd (animate_point moved mx my point) = false ->
  element (fst (animate_point moved mx my point)) = element point.
Proof.
  unfold animate_point.
  destruct (target mx my point) as [tx ty].
  repeat match goal with |- context [if ?c then _ else _] => destruct c end;
    simpl; intros H; try discriminate; reflexivity.
Qed.

(** When the step stops the driver. *)
Lemma animate_stop (s : State) :
  writes (mouseMoved s) (mouseX s) (mouseY s) (gridPoints s) = 0%nat ->
  mouseMoved s = false ->
  isAnimating (animate s) = false
  /\ rafPending (animate s) = remove Nat.eq_dec (rafId s) (rafPending s)
  /\ rafLast (animate s) = rafLast s
  /\ rafId (animate s) = rafId s.
Proof.
  intros Hw Hm. apply writes_zero in Hw.
  unfold animate. rewrite forEach_point_spec, Hw, Hm. simpl.
  repeat split.
Qed.

(** When the step goes on. *)
Lemma animate_continue (s : State) :
  ~ (writes (mouseMoved s) (mouseX s) (mouseY s) (gridPoints s) = 0%nat
     /\ mouseMoved s = false) ->
  isAnimating (animate s) = isAnimating s
  /\ rafPending (animate s) = rafPending s ++ [S (rafLast s)]
  /\ rafLast (animate s) = S (rafLast s)
  /\ rafId (animate s) = S (rafLast s).
Proof.
  intros Hn. rewrite writes_zero in Hn.
  unfold animate. rewrite forEach_point_spec. simpl orb.
  destruct (existsb _ _) eqn:He; destruct (mouseMoved s) eqn:Hm; simpl;
    try (repeat split; fail).
  exfalso. apply Hn. split; reflexivity.
Qed.

Lemma animate_lastMouse (s : State) :
  lastMouseX (animate s) = mouseX s /\ lastMouseY (animate s) = mouseY s
  /\ mouseX (animate s) = mouseX s /\ mouseY (animate s) = mouseY s.
Proof.
  unfold animate. rewrite forEach_point_spec.
  destruct (negb _ && negb _); repeat split.
Qed.

Lemma frame_Running (s : State) :
  Running s -> frame s = animate (set_raf (rafLast s) [] s).
Proof. intros [_ Hp]. unfold frame. rewrite Hp. reflexivity. Qed.

(** C5. A step of a running driver makes it idle, with no step scheduled,
    exactly when the step wrote to no marker and the pointer has not moved
    since the last step; in every other case it schedules exactly one next
    step and the driver stays running. *)
Theorem C5_step_running_to_idle :
  forall s : State,
    Running s ->
    let moved := mouseMoved s in
    let written := writes moved (mouseX s) (mouseY s) (gridPoints s) in
    let s' := frame s in
    (Idle s' <-> written = 0%nat /\ moved = false)
    /\ (written = 0%nat /\ moved = false ->
        isAnimating s' = false /\ rafPending s' = []
        /\ rafLast s' = rafLast s)
    /\ (~ (written = 0%nat /\ moved = false) ->
        isAnimating s' = true /\ rafPending s' = [S (rafLast s)]
        /\ rafId s' = S (rafLast s) /\ Running s').
Proof.
  intros s Hrun moved written s'.
  assert (Hstop : written = 0%nat /\ moved = false ->
                  isAnimating s' = false /\ rafPending s' = []
                  /\ rafLast s' = rafLast s).
  { intros [Hw Hm]. unfold s'. rewrite (frame_Running s Hrun).
    destruct (animate_stop (set_raf (rafLast s) [] s) Hw Hm)
      as (Ha & Hp & Hl & _).
    rewrite Ha, Hp, Hl. repeat split. }
  assert (Hgo : ~ (written = 0%nat /\ moved = false) ->
                isAnimating s' = true /\ rafPending s' = [S (rafLast s)]
                /\ rafId s' = S (rafLast s) /\ Running s').
  { intros Hn. unfold s'. rewrite (frame_Running s Hrun).
    destruct (animate_continue (set_raf (rafLast s) [] s) Hn)
      as (Ha & Hp & Hl & Hi).
    destruct Hrun as [Hanim _].
    unfold Running. rewrite Ha, Hp, Hi. simpl. rewrite Hanim.
    repeat split. }
  split; [|split; assumption].
  split.
  - intros [Hidle _].
    destruct (Nat.eq_dec written 0) as [Hw|Hw];
      destruct moved eqn:Hm; auto;
      destruct Hgo as (Ha & _); try congruence;
      intros [H1 H2]; congruence.
  - intros H. destruct (Hstop H) as (Ha & Hp & _). split; assumption.
Qed.

Lemma C5_step_running_to_idle_witness :
  let s := mkState 25 25 25 25 true 1 [first_marker 0 0 fresh_element]
             [0%nat] 40 40 1 1 [1%nat] in
  isAnimating (frame s) = false /\ rafPending (frame s) = [].
Proof.
  cbv zeta.
  assert (Hrun : Running (mkState 25 25 25 25 true 1
                            [first_marker 0 0 fresh_element]
                            [0%nat] 40 40 1 1 [1%nat])).
  { split; reflexivity. }
  destruct (C5_step_running_to_idle _ Hrun) as (_ & Hstop & _).
  destruct Hstop as (Ha & Hp & _); [|split; assumption].
  assert (Hm : mouseMoved (mkState 25 25 25 25 true 1
                            [first_marker 0 0 fresh_element]
                            [0%nat] 40 40 1 1 [1%nat]) = false).
  { unfold mouseMoved, EPSILON. simpl. decide_cmp. reflexivity. }
  split; [|exact Hm].
  rewrite Hm. unfold writes. simpl filter.
  rewrite animate_point_skip; [reflexivity|].
  split; simpl; unfold EPSILON; cmp_arith.
Defined.

Lemma writes_none (moved : bool) (mx my : R) (points : list GridPoint) :
  (forall point, In point points ->
                 snd (animate_point moved mx my point) = false) ->
  writes moved mx my points = 0%nat.
Proof.
  intros H. apply writes_zero.
  induction points as [|point rest IH]; simpl; [reflexivity|].
  rewrite (H point (or_introl eq_refl)). simpl.
  apply IH. intros q Hq. apply H. right. exact Hq.
Qed.

(** C7, as the code has it. With an unmoved pointer, a step writes to no
    marker when every marker either is within [EPSILON] of zero on both
    axes (its update is skipped) or is given by the step a displacement
    within [EPSILON] of its last-written one on both axes. *)
Theorem C7_no_write_when_new_displacement_close :
  forall s : State,
    mouseMoved s = false ->
    (forall point : GridPoint,
        In point (gridPoints s) ->
        settled point
        \/ (let far := Rgeb (distance_to (mouseX s) (mouseY s) point)
                         PULL_DISTANCE in
            let t := target (mouseX s) (mouseY s) point in
            let newX := settle far (ease (offsetX point) (fst t)) in
            let newY := settle far (ease (offsetY point) (snd t)) in
            Rabs (newX - parseFloat_or_0 (dataset_ox (element point)))
            <= EPSILON
            /\ Rabs (newY - parseFloat_or_0 (dataset_oy (element point)))
               <= EPSILON)) ->
    writes false (mouseX s) (mouseY s) (gridPoints s) = 0%nat
    /\ map element (gridPoints (animate s)) = map element (gridPoints s).
Proof.
  intros s Hm Hclose.
  assert (Hnone : forall point, In point (gridPoints s) ->
            snd (animate_point false (mouseX s) (mouseY s) point) = false).
  { intros point Hin.
    destruct (Hclose point Hin) as [Hs | [HX HY]].
    - rewrite animate_point_skip by exact Hs. reflexivity.
    - destruct (snd (animate_point false (mouseX s) (mouseY s) point)) eqn:Hw;
        [|reflexivity].
      apply animate_point_wrote in Hw. destruct Hw as [Hupd Hdiff].
      destruct (animate_point_update false (mouseX s) (mouseY s) point Hupd)
        as [EX EY].
      cbv zeta in *. rewrite EX, EY in Hdiff. lra. }
  split.
  - apply writes_none. exact Hnone.
  - rewrite gridPoints_animate, Hm, map_map.
    apply map_ext_in. intros point Hin.
    apply animate_point_element. apply Hnone. exact Hin.
Qed.

Lemma C7_no_write_when_new_displacement_close_witness :
  let s := mkState 10000 0 10000 0 true 1
             [first_marker 0.03 0 (written_element 0.03 0)]
             [0%nat] 40 40 1 1 [1%nat] in
  writes false 10000 0 (gridPoints s) = 0%nat
  /\ map element (gridPoints (animate s)) = map element (gridPoints s).
Proof.
  cbv zeta.
  apply (C7_no_write_when_new_displacement_close
           (mkState 10000 0 10000 0 true 1
              [first_marker 0.03 0 (written_element 0.03 0)]
              [0%nat] 40 40 1 1 [1%nat])).
  - unfold mouseMoved, EPSILON. simpl. decide_cmp. reflexivity.
  - intros point [<- | []]. right. cbv zeta. simpl mouseX. simpl mouseY.
    rewrite (target_far _ _ _ (first_marker_far _ _ _)).
    replace (Rgeb _ PULL_DISTANCE) with true
      by (symmetry; apply Rgeb_true; apply first_marker_far).
    unfold settle, ease, EPSILON. simpl. decide_cmp. split; cmp_arith.
Defined.

(** C7, as it is stated, fails: the pointer has not moved and the
    marker's displacement (5, 0) is the one last written, yet the step
    moves the marker to (3.6, 0) and writes it. *)
Lemma C7_counterexample :
  let point := first_marker 5 0 (written_element 5 0) in
  let s := mkState 10000 0 10000 0 true 1 [point] [0%nat] 40 40 1 1 [1%nat] in
  mouseMoved s = false
  /\ Rabs (offsetX point - parseFloat_or_0 (dataset_ox (element point)))
     <= EPSILON
  /\ Rabs (offsetY point - parseFloat_or_0 (dataset_oy (element point)))
     <= EPSILON
  /\ writes (mouseMoved s) (mouseX s) (mouseY s) (gridPoints s) = 1%nat
  /\ map (fun q => transform (element q)) (gridPoints (animate s))
     = [Some (3.6, 0)].
Proof.
  cbv zeta.
  assert (Hm : mouseMoved (mkState 10000 0 10000 0 true 1
                 [first_marker 5 0 (written_element 5 0)]
                 [0%nat] 40 40 1 1 [1%nat]) = false).
  { unfold mouseMoved, EPSILON. simpl. decide_cmp. reflexivity. }
  assert (Hstep : animate_point false 10000 0
                    (first_marker 5 0 (written_element 5 0))
                  = (mkGridPoint 0 0 3.6 0
                       (write_transform 3.6 0 (written_element 5 0)), true)).
  { unfold animate_point.
    rewrite (target_far _ _ _ (first_marker_far _ _ _)).
    replace (Rgeb _ PULL_DISTANCE) with true
      by (symmetry; apply Rgeb_true; apply first_marker_far).
    unfold settle, ease, EPSILON. simpl. decide_cmp. simpl.
    replace ((5 + (0 - 5) * 0.2) * 0.9) with 3.6 by lra.
    reflexivity. }
  split; [exact Hm|].
  split; [simpl; unfold EPSILON; cmp_arith|].
  split; [simpl; unfold EPSILON; cmp_arith|].
  split.
  - rewrite Hm. unfold writes. simpl filter. rewrite Hstep. reflexivity.
  - rewrite gridPoints_animate, Hm. simpl. rewrite Hstep. reflexivity.
Qed.

(** ** The pointer tracker *)

Lemma startAnimation_Idle (s : State) :
  Idle s -> Running (startAnimation s).
Proof.
  intros [Ha Hp]. unfold startAnimation, Running. rewrite Ha. simpl.
  rewrite Hp. split; reflexivity.
Qed.

Lemma startAnimation_Running (s : State) :
  Running s -> startAnimation s = s.
Proof.
  intros [Ha _]. unfold startAnimation. rewrite Ha. reflexivity.
Qed.

Lemma startAnimation_isAnimating (s : State) :
  isAnimating (startAnimation s) = true.
Proof.
  unfold startAnimation. destruct (isAnimating s) eqn:Ha; simpl; auto.
Qed.

Lemma startAnimation_mouse (s : State) :
  mouseX (startAnimation s) = mouseX s /\ mouseY (startAnimation s) = mouseY s.
Proof.
  unfold startAnimation. destruct (isAnimating s); simpl; auto.
Qed.

(** C9. A touch-start event with no active touch point leaves the whole
    state as it is: the pointer coordinates are unchanged and the driver
    is not triggered.  With at least one touch point, the pointer
    coordinates become those of the first touch point and the driver is
    asked to run: an idle driver starts, a running one goes on. *)
Theorem C9_touchstart :
  forall s : State,
    on_touchstart [] s = s
    /\ forall (touch : R * R) (others : list (R * R)),
         let s' := on_touchstart (touch :: others) s in
         mouseX s' = fst touch /\ mouseY s' = snd touch
         /\ s' = startAnimation (set_mouse (fst touch) (snd touch) s)
         /\ isAnimating s' = true
         /\ (Idle s -> Running s')
         /\ (Running s -> Running s' /\ rafPending s' = rafPending s).
Proof.
  intros s. split; [reflexivity|].
  intros [cx cy] others s'. unfold s', on_touchstart. simpl nth_error.
  cbv iota beta. simpl fst. simpl snd.
  destruct (startAnimation_mouse (set_mouse cx cy s)) as [Hx Hy].
  rewrite Hx, Hy, startAnimation_isAnimating.
  do 4 (split; [reflexivity|]).
  split.
  - intros Hidle. apply startAnimation_Idle. exact Hidle.
  - intros Hrun.
    assert (Hrun' : Running (set_mouse cx cy s)) by exact Hrun.
    rewrite (startAnimation_Running _ Hrun').
    split; [exact Hrun'|reflexivity].
Qed.

Lemma C9_touchstart_witness :
  on_touchstart [] (initial 40 40 [] 0) = initial 40 40 [] 0
  /\ Running (on_touchstart [(3, 4); (7, 8)] (initial 40 40 [] 0))
  /\ mouseX (on_touchstart [(3, 4); (7, 8)] (initial 40 40 [] 0)) = 3.
Proof.
  destruct (C9_touchstart (initial 40 40 [] 0)) as [Hnone Hsome].
  split; [exact Hnone|].
  destruct (Hsome (3, 4) [(7, 8)]) as (Hx & _ & _ & _ & Hidle & _).
  split; [|exact Hx].
  apply Hidle. split; reflexivity.
Defined.

(** C10. A step takes the pointer as moved exactly when the current and
    the previous-step coordinates differ by more than [EPSILON] on an
    axis.  A movement of at most [EPSILON] on both axes is no movement:
    it does not force the update of a marker at rest, and it does not
    keep running a driver whose step wrote nothing.  The previous-step
    coordinates are the ones the pointer had when the last step ran. *)
Theorem C10_mouseMoved_threshold :
  forall s : State,
    (mouseMoved s = true
     <-> EPSILON < Rabs (mouseX s - lastMouseX s)
         \/ EPSILON < Rabs (mouseY s - lastMouseY s))
    /\ (Rabs (mouseX s - lastMouseX s) <= EPSILON ->
        Rabs (mouseY s - lastMouseY s) <= EPSILON ->
        mouseMoved s = false
        /\ (forall point : GridPoint,
              settled point ->
              animate_point (mouseMoved s) (mouseX s) (mouseY s) point
              = (point, false))
        /\ (Running s ->
            writes (mouseMoved s) (mouseX s) (mouseY s) (gridPoints s) = 0%nat ->
            Idle (frame s)))
    /\ lastMouseX (animate s) = mouseX s /\ lastMouseY (animate s) = mouseY s.
Proof.
  intros s.
  assert (Hiff : mouseMoved s = true
                 <-> EPSILON < Rabs (mouseX s - lastMouseX s)
                     \/ EPSILON < Rabs (mouseY s - lastMouseY s)).
  { unfold mouseMoved. rewrite orb_true_iff, !Rgtb_true. reflexivity. }
  split; [exact Hiff|].
  split; [|split; apply (animate_lastMouse s)].
  intros Hx Hy.
  assert (Hm : mouseMoved s = false).
  { destruct (mouseMoved s); [|reflexivity].
    destruct (proj1 Hiff eq_refl); lra. }
  split; [exact Hm|]. split.
  - intros point Hs. rewrite Hm. apply animate_point_skip. exact Hs.
  - intros Hrun Hw.
    rewrite (frame_Running s Hrun).
    destruct (animate_stop (set_raf (rafLast s) [] s) Hw Hm) as (Ha & Hp & _).
    split; [exact Ha|]. rewrite Hp. reflexivity.
Qed.

Lemma C10_mouseMoved_threshold_witness :
  let s := mkState 25.01 25 25 25.005 true 1 [first_marker 0 0 fresh_element]
             [0%nat] 40 40 1 1 [1%nat] in
  mouseMoved s = false /\ Idle (frame s).
Proof.
  cbv zeta.
  destruct (C10_mouseMoved_threshold
              (mkState 25.01 25 25 25.005 true 1
                 [first_marker 0 0 fresh_element] [0%nat] 40 40 1 1 [1%nat]))
    as (_ & H & _).
  destruct H as (Hm & Hskip & Hidle).
  - simpl. unfold EPSILON. cmp_arith.
  - simpl. unfold EPSILON. cmp_arith.
  - split; [exact Hm|]. apply Hidle.
    + split; reflexivity.
    + apply writes_none. intros point [<- | []].
      rewrite Hskip; [reflexivity|].
      split; simpl; unfold EPSILON; cmp_arith.
Defined.

(** ** Rebuilding the grid *)

Lemma cells_nodes (c : R) (cols first n : nat) :
  map (fun point => node (element point)) (cells c cols first n)
  = seq first n.
Proof.
  unfold cells. rewrite map_map. simpl.
  rewrite (seq_from first n). reflexivity.
Qed.

Lemma animate_keeps_nodes (s : State) :
  marker_nodes (animate s) = marker_nodes s
  /\ gridContainer (animate s) = gridContainer s
  /\ nextNode (animate s) = nextNode s.
Proof.
  split.
  - unfold marker_nodes. rewrite gridPoints_animate, map_map.
    apply map_ext. intros point.
    apply (animate_point_keeps (mouseMoved s) (mouseX s) (mouseY s) point).
  - unfold animate. rewrite forEach_point_spec.
    destruct (negb _ && negb _); split; reflexivity.
Qed.

Lemma frame_keeps_nodes (s : State) :
  marker_nodes (frame s) = marker_nodes s
  /\ gridContainer (frame s) = gridContainer s
  /\ nextNode (frame s) = nextNode s.
Proof.
  unfold frame. destruct (rafPending s) as [|h rest].
  - repeat split.
  - apply (animate_keeps_nodes (set_raf (rafLast s) rest s)).
Qed.

Lemma frames_keep_nodes (k : nat) (s : State) :
  marker_nodes (frames k s) = marker_nodes s
  /\ gridContainer (frames k s) = gridContainer s
  /\ nextNode (frames k s) = nextNode s.
Proof.
  induction k as [|k (IHm & IHc & IHn)]; [repeat split|].
  unfold frames in *. simpl.
  destruct (frame_keeps_nodes (Nat.iter k frame s)) as (Hm & Hc & Hn).
  rewrite Hm, Hc, Hn. repeat split; assumption.
Qed.

(** What the resize listener leaves, whatever the driver does. *)
Lemma on_resize_grid (s : State) :
  let rows := Z.to_nat (rowMax CELL_SIZE s) in
  let cols := Z.to_nat (colMax CELL_SIZE s) in
  let s1 := generateGrid (discard_grid s) in
  gridPoints s1 = cells CELL_SIZE cols (nextNode s) (rows * cols)
  /\ gridContainer s1 = seq (nextNode s) (rows * cols)
  /\ nextNode s1 = (nextNode s + rows * cols)%nat
  /\ same_driver s s1.
Proof.
  cbv zeta. unfold generateGrid.
  destruct (generateGridWith_spec CELL_SIZE (discard_grid s))
    as (Hp & Hc & Hn & Hd).
  rewrite Hp, Hc, Hn, map_map, cells_nodes. simpl.
  repeat split; apply Hd.
Qed.

Lemma same_driver_Running (s s' : State) :
  same_driver s s' -> Running s -> Running s'.
Proof.
  unfold same_driver, Running. intros H [Ha Hp].
  decompose [and] H. split; congruence.
Qed.

Lemma same_driver_Idle (s s' : State) :
  same_driver s s' -> Idle s -> Idle s'.
Proof.
  unfold same_driver, Idle. intros H [Ha Hp].
  decompose [and] H. split; congruence.
Qed.

Lemma on_resize_Running (s : State) :
  Running s -> on_resize s = generateGrid (discard_grid s).
Proof.
  intros Hrun. unfold on_resize.
  destruct (on_resize_grid s) as (_ & _ & _ & Hd).
  pose proof (same_driver_Running _ _ Hd Hrun) as Hrun1.
  destruct Hrun1 as [Ha Hp]. rewrite Ha.
  apply startAnimation_Running. split; assumption.
Qed.

(** C8. A resize that arrives while the driver runs first empties the
    grid collection and detaches the old elements, then builds the grid
    for the new viewport out of new nodes.  No node of an old marker is a
    child of the container or belongs to a marker afterwards, the steps
    that follow visit markers of the new generation only, and the driver
    still runs, with the step it had scheduled still waiting. *)
Theorem C8_resize_while_running :
  forall (s : State) (w h : R),
    Running s -> nodes_allocated s ->
    let s0 := set_viewport w h s in
    let s' := handle (Resize w h) s in
    let rows := Z.to_nat (Math_ceil (h / CELL_SIZE) + 1) in
    let cols := Z.to_nat (Math_ceil (w / CELL_SIZE) + 1) in
    (gridPoints (discard_grid s0) = [] /\ gridContainer (discard_grid s0) = [])
    /\ s' = generateGrid (discard_grid s0)
    /\ gridPoints s' = cells CELL_SIZE cols (nextNode s) (rows * cols)
    /\ gridContainer s' = marker_nodes s'
    /\ (forall n : nat,
          In n (marker_nodes s) \/ In n (gridContainer s) ->
          ~ In n (gridContainer s') /\ ~ In n (marker_nodes s'))
    /\ (forall (k n : nat),
          In n (marker_nodes (frames k s')) ->
          (nextNode s <= n)%nat /\ ~ In n (marker_nodes s))
    /\ Running s'
    /\ rafPending s' = rafPending s /\ rafId s' = rafId s.
Proof.
  intros s w h Hrun [Hpts Hkids] s0 s' rows cols.
  assert (Hrun0 : Running s0) by exact Hrun.
  assert (Hs' : s' = generateGrid (discard_grid s0))
    by (apply on_resize_Running; exact Hrun0).
  destruct (on_resize_grid s0) as (Hp & Hc & Hn & Hd).
  unfold rowMax, colMax in Hp, Hc, Hn. simpl innerHeight in *.
  simpl innerWidth in *. simpl nextNode in *.
  fold rows cols in Hp, Hc, Hn.
  rewrite <- Hs' in Hp, Hc, Hn, Hd.
  assert (Hnodes : marker_nodes s' = seq (nextNode s) (rows * cols)).
  { unfold marker_nodes. rewrite Hp. apply cells_nodes. }
  assert (Hold : forall n, In n (marker_nodes s) \/ In n (gridContainer s) ->
                           (n < nextNode s)%nat).
  { intros n [Hin | Hin].
    - unfold marker_nodes in Hin. apply in_map_iff in Hin.
      destruct Hin as (point & <- & Hin).
      rewrite Forall_forall in Hpts. apply Hpts. exact Hin.
    - rewrite Forall_forall in Hkids. apply Hkids. exact Hin. }
  split; [split; reflexivity|].
  split; [exact Hs'|]. split; [exact Hp|].
  split; [rewrite Hnodes; exact Hc|].
  split; [|split; [|split; [|split]]].
  - intros n Hin. apply Hold in Hin.
    rewrite Hc, Hnodes. split; intros Hnew; apply in_seq in Hnew; lia.
  - intros k n Hin.
    destruct (frames_keep_nodes k s') as (Hm & _ & _).
    rewrite Hm, Hnodes in Hin. apply in_seq in Hin.
    split; [lia|]. intros Ho.
    pose proof (Hold n (or_introl Ho)). lia.
  - apply (same_driver_Running s0 s' Hd Hrun0).
  - unfold same_driver in Hd. decompose [and] Hd. assumption.
  - unfold same_driver in Hd. decompose [and] Hd. assumption.
Qed.

Lemma C8_resize_while_running_witness :
  let s := mkState 25 25 0 0 true 1 [first_marker 0 0 fresh_element] [0%nat]
             40 40 1 1 [1%nat] in
  Running (handle (Resize 1000 800) s)
  /\ List.length (gridPoints (handle (Resize 1000 800) s)) = 357%nat
  /\ ~ In 0%nat (gridContainer (handle (Resize 1000 800) s)).
Proof.
  cbv zeta.
  assert (Hrun : Running (mkState 25 25 0 0 true 1
                   [first_marker 0 0 fresh_element] [0%nat]
                   40 40 1 1 [1%nat])) by (split; reflexivity).
  assert (Halloc : nodes_allocated (mkState 25 25 0 0 true 1
                   [first_marker 0 0 fresh_element] [0%nat]
                   40 40 1 1 [1%nat])).
  { split; repeat constructor. }
  destruct (C8_resize_while_running _ 1000 800 Hrun Halloc)
    as (_ & _ & Hp & _ & Hold & _ & Hrun' & _).
  split; [exact Hrun'|]. split.
  - rewrite Hp, length_cells.
    rewrite (Math_ceil_quotient 800 16 CELL_SIZE),
      (Math_ceil_quotient 1000 20 CELL_SIZE);
      unfold CELL_SIZE; try lra; reflexivity.
  - apply (Hold 0%nat). right. left. reflexivity.
Defined.

(** ** A pointer that stays out of range *)

Lemma hold_S (mx my : R) (n : nat) (point : GridPoint) :
  hold mx my (S n) point
  = fst (animate_point false mx my (hold mx my n point)).
Proof. reflexivity. Qed.

Lemma hold_S_r (mx my : R) (n : nat) (point : GridPoint) :
  hold mx my (S n) point
  = hold mx my n (fst (animate_point false mx my point)).
Proof. unfold hold. apply Nat.iter_succ_r. Qed.

Lemma held_false (mx my : R) (n : nat) (point : GridPoint) :
  held false mx my n point = hold mx my n point.
Proof. destruct n; [reflexivity|]. simpl. symmetry. apply hold_S_r. Qed.

Lemma hold_settled (mx my : R) (n : nat) (point : GridPoint) :
  settled point -> hold mx my n point = point.
Proof.
  intros Hs. induction n as [|n IH]; [reflexivity|].
  rewrite hold_S, IH, animate_point_skip by exact Hs. reflexivity.
Qed.

Lemma hold_add (mx my : R) (n m : nat) (point : GridPoint) :
  hold mx my (n + m) point = hold mx my n (hold mx my m point).
Proof. unfold hold. apply Nat.iter_add. Qed.

Lemma distance_to_xy (mx my : R) (p q : GridPoint) :
  x q = x p -> y q = y p -> distance_to mx my q = distance_to mx my p.
Proof. intros Hx Hy. unfold distance_to. rewrite Hx, Hy. reflexivity. Qed.

Lemma animate_point_distance (moved : bool) (mx my : R) (point : GridPoint) :
  distance_to mx my (fst (animate_point moved mx my point))
  = distance_to mx my point.
Proof.
  destruct (animate_point_keeps moved mx my point) as (Hx & Hy & _).
  apply distance_to_xy; assumption.
Qed.

Lemma hold_distance (mx my : R) (n : nat) (point : GridPoint) :
  distance_to mx my (hold mx my n point) = distance_to mx my point.
Proof.
  induction n as [|n IH]; [reflexivity|].
  rewrite hold_S, animate_point_distance. exact IH.
Qed.

(** Out of range, an update shrinks an axis by 0.72 at least. *)
Lemma settle_far_shrinks (offset : R) :
  Rabs (settle true (ease offset 0)) <= 0.72 * Rabs offset.
Proof.
  unfold settle, ease.
  destruct (Rgtb (Rabs (offset + (0 - offset) * 0.2)) EPSILON); cmp_arith.
Qed.

Lemma settled_dec (point : GridPoint) :
  settled point
  \/ EPSILON < Rabs (offsetX point) \/ EPSILON < Rabs (offsetY point).
Proof.
  unfold settled.
  destruct (Rle_dec (Rabs (offsetX point)) EPSILON);
    destruct (Rle_dec (Rabs (offsetY point)) EPSILON); auto;
    right; [right | left | left]; lra.
Qed.

(** While the marker is not at rest, its displacement shrinks
    geometrically. *)
Lemma hold_far_bound (mx my : R) (point : GridPoint) :
  PULL_DISTANCE <= distance_to mx my point ->
  forall n : nat,
    settled (hold mx my n point)
    \/ (Rabs (offsetX (hold mx my n point)) <= 0.72 ^ n * Rabs (offsetX point)
        /\ Rabs (offsetY (hold mx my n point))
           <= 0.72 ^ n * Rabs (offsetY point)).
Proof.
  intros Hfar. induction n as [|n IH].
  - right. simpl. lra.
  - rewrite hold_S.
    destruct (settled_dec (hold mx my n point)) as [Hs | Hupd].
    + left. rewrite animate_point_skip by exact Hs. exact Hs.
    + destruct IH as [Hs | [HX HY]].
      { left. rewrite animate_point_skip by exact Hs. exact Hs. }
      right.
      assert (Hfar' : PULL_DISTANCE <= distance_to mx my (hold mx my n point))
        by (rewrite hold_distance; exact Hfar).
      destruct (animate_point_far false mx my _ Hfar' (or_intror Hupd))
        as [EX EY].
      rewrite EX, EY.
      pose proof (settle_far_shrinks (offsetX (hold mx my n point))).
      pose proof (settle_far_shrinks (offsetY (hold mx my n point))).
      simpl pow. split; lra.
Qed.

(** Out of range, a held marker comes to rest. *)
Lemma hold_far_settles (mx my : R) (point : GridPoint) :
  PULL_DISTANCE <= distance_to mx my point ->
  exists N : nat, settled (hold mx my N point).
Proof.
  intros Hfar.
  set (A := Rabs (offsetX point) + Rabs (offsetY point) + 1).
  assert (HA : 1 <= A).
  { unfold A. pose proof (Rabs_pos (offsetX point)).
    pose proof (Rabs_pos (offsetY point)). lra. }
  assert (Hy : 0 < EPSILON / A).
  { apply Rdiv_lt_0_compat; [unfold EPSILON|]; lra. }
  destruct (pow_lt_1_zero 0.72 ltac:(cmp_arith) (EPSILON / A) Hy) as [N HN].
  exists N.
  destruct (hold_far_bound mx my point Hfar N) as [Hs | [HX HY]];
    [exact Hs|].
  specialize (HN N (le_n N)).
  assert (Hpow : 0 <= 0.72 ^ N) by (apply pow_le; lra).
  rewrite (Rabs_pos_eq _ Hpow) in HN.
  assert (Hsmall : 0.72 ^ N * A < EPSILON).
  { apply (Rmult_lt_compat_r A) in HN; [|lra].
    unfold Rdiv in HN. rewrite Rmult_assoc, Rinv_l, Rmult_1_r in HN by lra.
    exact HN. }
  pose proof (Rabs_pos (offsetX point)).
  pose proof (Rabs_pos (offsetY point)).
  assert (0.72 ^ N * Rabs (offsetX point) <= 0.72 ^ N * A)
    by (apply Rmult_le_compat_l; unfold A; lra).
  assert (0.72 ^ N * Rabs (offsetY point) <= 0.72 ^ N * A)
    by (apply Rmult_le_compat_l; unfold A; lra).
  split; lra.
Qed.

Lemma held_far_settles (moved0 : bool) (mx my : R) (point : GridPoint) :
  PULL_DISTANCE <= distance_to mx my point ->
  exists N : nat,
    forall n : nat,
      (N <= n)%nat ->
      settled (held moved0 mx my n point)
      /\ held moved0 mx my n point = held moved0 mx my N point.
Proof.
  intros Hfar.
  set (first := fst (animate_point moved0 mx my point)).
  assert (Hfar1 : PULL_DISTANCE <= distance_to mx my first)
    by (unfold first; rewrite animate_point_distance; exact Hfar).
  destruct (hold_far_settles mx my first Hfar1) as [N HN].
  exists (S N). intros n Hn.
  destruct n as [|n]; [lia|]. simpl. fold first.
  replace n with ((n - N) + N)%nat by lia.
  rewrite hold_add, hold_settled by exact HN.
  split; [exact HN | reflexivity].
Qed.

Lemma frame_settled_idle (s : State) :
  Running s -> mouseMoved s = false ->
  (forall point, In point (gridPoints s) -> settled point) ->
  Idle (frame s) /\ gridPoints (frame s) = gridPoints s.
Proof.
  intros Hrun Hm Hrest.
  rewrite (frame_Running s Hrun).
  set (s0 := set_raf (rafLast s) [] s).
  assert (Hskip : forall point, In point (gridPoints s0) ->
            animate_point (mouseMoved s0) (mouseX s0) (mouseY s0) point
            = (point, false)).
  { intros point Hin. change (mouseMoved s0) with (mouseMoved s).
    rewrite Hm. apply animate_point_skip. apply Hrest. exact Hin. }
  assert (Hw : writes (mouseMoved s0) (mouseX s0) (mouseY s0) (gridPoints s0)
               = 0%nat).
  { apply writes_none. intros point Hin. rewrite (Hskip point Hin).
    reflexivity. }
  destruct (animate_stop s0 Hw Hm) as (Ha & Hp & _).
  split; [split; [exact Ha | rewrite Hp; reflexivity]|].
  rewrite gridPoints_animate.
  transitivity (map (fun point : GridPoint => point) (gridPoints s0));
    [|apply map_id].
  apply map_ext_in. intros point Hin.
  rewrite (Hskip point Hin). reflexivity.
Qed.

(** C1, as the code has it. While the pointer stays at a position at
    least [PULL_DISTANCE] from a marker's rest-position center, the
    per-step update, iterated from any starting displacement, brings the
    marker after finitely many steps to a displacement within [EPSILON]
    of zero on both axes, where it stays unchanged; and once every marker
    is within [EPSILON] of zero on both axes (at (0,0) in particular) and
    the pointer has not moved, the step of a running driver makes it
    idle. *)
Theorem C1_far_pointer_comes_to_rest :
  forall (moved0 : bool) (mx my : R) (point : GridPoint),
    PULL_DISTANCE <= distance_to mx my point ->
    (exists N : nat,
        forall n : nat,
          (N <= n)%nat ->
          Rabs (offsetX (held moved0 mx my n point)) <= EPSILON
          /\ Rabs (offsetY (held moved0 mx my n point)) <= EPSILON
          /\ held moved0 mx my n point = held moved0 mx my N point)
    /\ (forall s : State,
          Running s -> mouseMoved s = false ->
          (forall q : GridPoint,
              In q (gridPoints s) ->
              Rabs (offsetX q) <= EPSILON /\ Rabs (offsetY q) <= EPSILON) ->
          Idle (frame s) /\ gridPoints (frame s) = gridPoints s).
Proof.
  intros moved0 mx my point Hfar. split.
  - destruct (held_far_settles moved0 mx my point Hfar) as [N HN].
    exists N. intros n Hn. destruct (HN n Hn) as [[HX HY] Heq].
    repeat split; assumption.
  - intros s Hrun Hm Hrest. apply frame_settled_idle; assumption.
Qed.

Lemma C1_far_pointer_comes_to_rest_witness :
  exists N : nat,
    forall n : nat,
      (N <= n)%nat ->
      Rabs (offsetX (held true 10000 0 n (first_marker 5 3 fresh_element)))
      <= EPSILON.
Proof.
  destruct (C1_far_pointer_comes_to_rest true 10000 0
              (first_marker 5 3 fresh_element)
              (first_marker_far 5 3 fresh_element)) as [[N HN] _].
  exists N. intros n Hn. apply (HN n Hn).
Defined.

(** C1, as it is stated, fails: with the pointer out of range and
    unmoved, the displacement (0.013, 0) goes to (0.00936, 0) in one step
    and then stays there, the update being skipped: it never is (0,0). *)
Lemma C1_counterexample :
  let point := first_marker 0.013 0 fresh_element in
  PULL_DISTANCE <= distance_to 10000 0 point
  /\ offsetX (held false 10000 0 1 point) = 0.00936
  /\ ~ (exists n : nat,
           offsetX (held false 10000 0 n point) = 0
           /\ offsetY (held false 10000 0 n point) = 0).
Proof.
  cbv zeta.
  set (point := first_marker 0.013 0 fresh_element).
  assert (Hfar : PULL_DISTANCE <= distance_to 10000 0 point)
    by apply first_marker_far.
  assert (Hgt : EPSILON < Rabs (offsetX point)).
  { simpl. unfold EPSILON. cmp_arith. }
  destruct (animate_point_far false 10000 0 point Hfar
              (or_intror (or_introl Hgt))) as [HX HY].
  assert (EX : offsetX (fst (animate_point false 10000 0 point)) = 0.00936).
  { rewrite HX. unfold settle, ease, EPSILON. simpl. decide_cmp. lra. }
  assert (EY : offsetY (fst (animate_point false 10000 0 point)) = 0).
  { rewrite HY. unfold settle, ease, EPSILON. simpl. decide_cmp. lra. }
  assert (Hrest : settled (fst (animate_point false 10000 0 point))).
  { split; [rewrite EX | rewrite EY]; unfold EPSILON; cmp_arith. }
  split; [exact Hfar|]. split; [exact EX|].
  intros [n [H0 _]]. destruct n as [|n].
  - simpl in H0. lra.
  - simpl in H0. rewrite hold_settled in H0 by exact Hrest. lra.
Qed.

(** ** A pointer that stays on a marker's center *)

Lemma magnitude_on_x_axis (point : GridPoint) :
  offsetY point = 0 -> 0 <= offsetX point -> magnitude point = offsetX point.
Proof.
  intros Hy Hx. unfold magnitude. rewrite Hy.
  replace (offsetX point * offsetX point + 0 * 0)
    with (offsetX point * offsetX point) by ring.
  apply sqrt_square. exact Hx.
Qed.

(** One step of a marker displaced along the positive x axis, the pointer
    on its center: the displacement is eased towards 20 and nothing is
    snapped. *)
Lemma animate_point_center (moved : bool) (mx my : R) (point : GridPoint) :
  mx = centerX point -> my = centerY point ->
  offsetY point = 0 -> 0 <= offsetX point ->
  moved = true \/ EPSILON < offsetX point ->
  let point' := fst (animate_point moved mx my point) in
  offsetX point' = offsetX point + (20 - offsetX point) * 0.2
  /\ offsetY point' = 0
  /\ mx = centerX point' /\ my = centerY point'.
Proof.
  intros Hx Hy Hoy Hox Hupd. cbv zeta.
  assert (Hupd' : moved = true \/ EPSILON < Rabs (offsetX point)
                  \/ EPSILON < Rabs (offsetY point)).
  { destruct Hupd as [H | H]; [left; exact H|].
    right. left. rewrite Rabs_pos_eq by exact Hox. exact H. }
  destruct (animate_point_update moved mx my point Hupd') as [EX EY].
  destruct (animate_point_keeps moved mx my point) as (Kx & Ky & _).
  cbv zeta in *.
  rewrite (target_center _ _ _ Hx Hy), (distance_center _ _ _ Hx Hy) in EX, EY.
  simpl fst in EX. simpl snd in EY.
  rewrite EX, EY, Hoy.
  unfold centerX, centerY. rewrite Kx, Ky.
  unfold settle, ease, PULL_DISTANCE, PULL_STRENGTH, CELL_SIZE, EPSILON.
  decide_cmp.
  replace (Rgtb (Rabs (offsetX point + (0.4 * 50 - offsetX point) * 0.2)) 0.01)
    with true by (symmetry; apply Rgtb_true; cmp_arith).
  repeat split; try assumption; lra.
Qed.

(** The displacement of a held marker in closed form. *)
Lemma hold_center (mx my : R) (point : GridPoint) :
  mx = centerX point -> my = centerY point ->
  offsetY point = 0 -> EPSILON < offsetX point < 20 ->
  forall n : nat,
    offsetY (hold mx my n point) = 0
    /\ offsetX (hold mx my n point) = 20 - (20 - offsetX point) * 0.8 ^ n
    /\ mx = centerX (hold mx my n point)
    /\ my = centerY (hold mx my n point).
Proof.
  intros Hx Hy Hoy Hox. induction n as [|n (IHy & IHx & IHcx & IHcy)].
  - simpl. repeat split; try assumption; lra.
  - rewrite hold_S.
    assert (Hpow : 0 < 0.8 ^ n <= 1).
    { split; [apply pow_lt; lra|].
      rewrite <- (pow1 n). apply pow_incr. lra. }
    assert (Hrange : EPSILON < offsetX (hold mx my n point) < 20).
    { rewrite IHx. unfold EPSILON in *. split; nra. }
    destruct (animate_point_center false mx my (hold mx my n point)
                IHcx IHcy IHy ltac:(unfold EPSILON in *; lra)
                (or_intror (proj1 Hrange)))
      as (EX & EY & Ecx & Ecy).
    cbv zeta in *. rewrite EX, EY, IHx. simpl pow.
    repeat split; try assumption; lra.
Qed.

Lemma held_center (moved0 : bool) (mx my : R) (point : GridPoint) :
  mx = centerX point -> my = centerY point ->
  offsetY point = 0 -> 0 <= offsetX point < 20 ->
  moved0 = true \/ EPSILON < offsetX point ->
  forall n : nat,
    offsetY (held moved0 mx my n point) = 0
    /\ offsetX (held moved0 mx my n point)
       = 20 - (20 - offsetX point) * 0.8 ^ n.
Proof.
  intros Hx Hy Hoy Hox Hupd n. destruct n as [|n].
  - simpl. split; [exact Hoy | lra].
  - simpl held.
    destruct (animate_point_center moved0 mx my point Hx Hy Hoy
                (proj1 Hox) Hupd) as (EX & EY & Ecx & Ecy).
    cbv zeta in *.
    destruct (hold_center mx my (fst (animate_point moved0 mx my point))
                Ecx Ecy EY ltac:(rewrite EX; unfold EPSILON; lra) n)
      as (Hy' & Hx' & _).
    rewrite Hy', Hx', EX. simpl pow. split; [reflexivity | lra].
Qed.

(** A step either skips the marker or gives it the eased and settled
    displacement. *)
Lemma animate_point_cases (moved : bool) (mx my : R) (point : GridPoint) :
  animate_point moved mx my point = (point, false)
  \/ ((moved = true \/ EPSILON < Rabs (offsetX point)
       \/ EPSILON < Rabs (offsetY point))
      /\ let far := Rgeb (distance_to mx my point) PULL_DISTANCE in
         let point' := fst (animate_point moved mx my point) in
         offsetX point'
         = settle far (ease (offsetX point) (fst (target mx my point)))
         /\ offsetY point'
            = settle far (ease (offsetY point) (snd (target mx my point)))).
Proof.
  destruct (moved || Rgtb (Rabs (offsetX point)) EPSILON
            || Rgtb (Rabs (offsetY point)) EPSILON) eqn:Hguard.
  - right.
    assert (Hupd : moved = true \/ EPSILON < Rabs (offsetX point)
                   \/ EPSILON < Rabs (offsetY point)).
    { rewrite !orb_true_iff, !Rgtb_true in Hguard. tauto. }
    split; [exact Hupd|]. apply animate_point_update. exact Hupd.
  - left. unfold animate_point.
    destruct (target mx my point) as [tx ty]. rewrite Hguard. reflexivity.
Qed.

Lemma settle_sq (far : bool) (v : R) : settle far v * settle far v <= v * v.
Proof.
  unfold settle. destruct far; destruct (Rgtb (Rabs v) EPSILON); nra.
Qed.

Lemma magnitude_lt (p q : GridPoint) :
  magnitude p < magnitude q
  <-> offsetX p * offsetX p + offsetY p * offsetY p
      < offsetX q * offsetX q + offsetY q * offsetY q.
Proof.
  unfold magnitude. split; intros H.
  - apply sqrt_lt_0_alt. exact H.
  - apply sqrt_lt_1_alt. split; [nra | exact H].
Qed.

Lemma magnitude_lt_bound (p : GridPoint) (b : R) :
  0 <= b ->
  (magnitude p < b
   <-> offsetX p * offsetX p + offsetY p * offsetY p < b * b).
Proof.
  intros Hb. unfold magnitude. rewrite <- (sqrt_square b Hb) at 1.
  split; intros H.
  - apply sqrt_lt_0_alt. exact H.
  - apply sqrt_lt_1_alt. split; [nra | exact H].
Qed.

Lemma magnitude_gt_bound (p : GridPoint) (b : R) :
  0 <= b -> b < offsetX p -> b < magnitude p.
Proof.
  intros Hb Hx. unfold magnitude. rewrite <- (sqrt_square b Hb).
  apply sqrt_lt_1_alt. split; nra.
Qed.

(** A step with the pointer on the center, whatever the displacement. *)
Lemma animate_point_on_center (moved : bool) (mx my : R) (point : GridPoint) :
  mx = centerX point -> my = centerY point ->
  moved = true \/ EPSILON < Rabs (offsetX point)
  \/ EPSILON < Rabs (offsetY point) ->
  let point' := fst (animate_point moved mx my point) in
  offsetX point' = settle false (offsetX point + (20 - offsetX point) * 0.2)
  /\ offsetY point' = settle false (offsetY point + (0 - offsetY point) * 0.2)
  /\ mx = centerX point' /\ my = centerY point'.
Proof.
  intros Hx Hy Hupd. cbv zeta.
  destruct (animate_point_update moved mx my point Hupd) as [EX EY].
  destruct (animate_point_keeps moved mx my point) as (Kx & Ky & _).
  cbv zeta in *.
  rewrite (target_center _ _ _ Hx Hy), (distance_center _ _ _ Hx Hy) in EX, EY.
  simpl fst in EX. simpl snd in EY.
  replace (Rgeb 0 PULL_DISTANCE) with false in EX, EY
    by (symmetry; apply Rgeb_false; unfold PULL_DISTANCE; lra).
  unfold ease in EX, EY.
  replace (PULL_STRENGTH * CELL_SIZE) with 20 in EX
    by (unfold PULL_STRENGTH, CELL_SIZE; lra).
  unfold centerX, centerY. rewrite Kx, Ky.
  repeat split; assumption.
Qed.

Lemma settle_near_cases (v : R) :
  (EPSILON < Rabs v /\ settle false v = v)
  \/ (Rabs v <= EPSILON /\ settle false v = 0).
Proof.
  unfold settle. destruct (Rgtb (Rabs v) EPSILON) eqn:H.
  - left. apply Rgtb_true in H. split; [exact H | reflexivity].
  - right. apply Rgtb_false in H. split; [exact H | reflexivity].
Qed.

(** Inside the circle and past [EPSILON] on the x axis, a step is never
    skipped, keeps the marker inside the circle, below 20, and lengthens
    the displacement unless it is within [EPSILON] of 20 already. *)
Lemma center_step (moved : bool) (mx my : R) (point : GridPoint) :
  mx = centerX point -> my = centerY point ->
  0 < pull_gap point -> EPSILON < offsetX point ->
  let point' := fst (animate_point moved mx my point) in
  offsetX point' = offsetX point + (20 - offsetX point) * 0.2
  /\ 0 < pull_gap point' /\ EPSILON < offsetX point'
  /\ mx = centerX point' /\ my = centerY point'
  /\ magnitude point' < 20
  /\ (magnitude point < 20 - EPSILON -> magnitude point < magnitude point').
Proof.
  intros Hx Hy Hgap Hox. cbv zeta.
  assert (Hupd : moved = true \/ EPSILON < Rabs (offsetX point)
                 \/ EPSILON < Rabs (offsetY point)).
  { right. left. unfold EPSILON in *. split_Rabs. }
  destruct (animate_point_on_center moved mx my point Hx Hy Hupd)
    as (EX & EY & Cx & Cy).
  cbv zeta in *.
  set (point' := fst (animate_point moved mx my point)) in *.
  unfold pull_gap, EPSILON in *.
  assert (Hlt20 : offsetX point < 20) by nra.
  destruct (settle_near_cases (offsetX point + (20 - offsetX point) * 0.2))
    as [[_ SX] | [HS _]];
    [|exfalso; unfold EPSILON in HS; split_Rabs].
  rewrite SX in EX.
  assert (Hsq' : offsetX point' * offsetX point' + offsetY point' * offsetY point'
                 < 20 * 20
                 /\ 0 < 160 * offsetX point' + 400
                        - 9 * (offsetX point' * offsetX point'
                               + offsetY point' * offsetY point')).
  { destruct (settle_near_cases (offsetY point + (0 - offsetY point) * 0.2))
      as [[_ SY] | [_ SY]]; rewrite SY in EY; rewrite EX, EY; split; nra. }
  split; [exact EX|]. split; [apply Hsq'|]. split; [rewrite EX; lra|].
  split; [exact Cx|]. split; [exact Cy|]. split.
  - apply magnitude_lt_bound; [lra | apply Hsq'].
  - intros Hfar. apply magnitude_lt.
    apply magnitude_lt_bound in Hfar; [|lra].
    assert (Hx19 : offsetX point < 19.99) by nra.
    destruct (settle_near_cases (offsetY point + (0 - offsetY point) * 0.2))
      as [[_ SY] | [HS SY]]; rewrite SY in EY; rewrite EX, EY.
    + nra.
    + assert (Hy2 : offsetY point * offsetY point <= 0.0002).
      { unfold EPSILON in HS. apply Rabs_le_iff in HS. nra. }
      nra.
Qed.

Lemma hold_on_center (mx my : R) (point : GridPoint) :
  mx = centerX point -> my = centerY point ->
  0 < pull_gap point -> EPSILON < offsetX point ->
  forall n : nat,
    let q := hold mx my n point in
    0 < pull_gap q /\ EPSILON < offsetX q
    /\ mx = centerX q /\ my = centerY q
    /\ offsetX q = 20 - (20 - offsetX point) * 0.8 ^ n.
Proof.
  intros Hx Hy Hgap Hox.
  induction n as [|n (IHg & IHo & IHx & IHy & IHc)]; cbv zeta.
  - simpl. repeat split; try assumption. lra.
  - rewrite hold_S.
    destruct (center_step false mx my (hold mx my n point) IHx IHy IHg IHo)
      as (EX & Hg & Ho & Cx & Cy & _).
    cbv zeta in *.
    repeat split; try assumption.
    rewrite EX, IHc. simpl pow. lra.
Qed.

(** A first step that lengthens the displacement was not skipped and
    started inside the circle. *)
Lemma first_step_lengthens (moved0 : bool) (mx my : R) (point : GridPoint) :
  mx = centerX point -> my = centerY point ->
  magnitude point < magnitude (fst (animate_point moved0 mx my point)) ->
  let point' := fst (animate_point moved0 mx my point) in
  0 < pull_gap point
  /\ 0 < pull_gap point' /\ EPSILON < offsetX point'
  /\ mx = centerX point' /\ my = centerY point'.
Proof.
  intros Hx Hy Hlonger. cbv zeta.
  apply magnitude_lt in Hlonger.
  destruct (animate_point_cases moved0 mx my point) as [Hskip | [Hupd _]].
  { rewrite Hskip in Hlonger. simpl in Hlonger. lra. }
  destruct (animate_point_on_center moved0 mx my point Hx Hy Hupd)
    as (EX & EY & Cx & Cy).
  cbv zeta in *.
  set (point' := fst (animate_point moved0 mx my point)) in *.
  pose proof (settle_sq false (offsetX point + (20 - offsetX point) * 0.2)) as SX.
  pose proof (settle_sq false (offsetY point + (0 - offsetY point) * 0.2)) as SY.
  rewrite <- EX in SX. rewrite <- EY in SY.
  assert (Hgap : 0 < pull_gap point) by (unfold pull_gap; nra).
  split; [exact Hgap|].
  unfold pull_gap in Hgap.
  assert (Hlt20 : offsetX point < 20) by nra.
  assert (Hgt : - 20 / 9 < offsetX point) by nra.
  destruct (settle_near_cases (offsetX point + (20 - offsetX point) * 0.2))
    as [[_ EX'] | [HS _]];
    [|exfalso; unfold EPSILON in HS; split_Rabs].
  rewrite EX' in EX.
  split; [|split; [rewrite EX; unfold EPSILON; lra | split; assumption]].
  unfold pull_gap.
  destruct (settle_near_cases (offsetY point + (0 - offsetY point) * 0.2))
    as [[_ EY'] | [_ EY']]; rewrite EY' in EY; rewrite EX, EY; nra.
Qed.

(** C6, as the code has it. While the pointer stays exactly on a
    marker's rest-position center, if the first step lengthens the
    marker's displacement (as it does from rest when that step sees the
    pointer moved, and from a displacement such as (3, 1)), then the
    displacement magnitude stays below [PULL_STRENGTH * CELL_SIZE = 20],
    strictly increases in every step taken from a magnitude below
    [20 - EPSILON], and after finitely many steps stays within
    [EPSILON] of 20. *)
Theorem C6_pull_increases_toward_full_pull :
  forall (moved0 : bool) (mx my : R) (point : GridPoint),
    mx = centerX point -> my = centerY point ->
    magnitude (held moved0 mx my 0 point)
    < magnitude (held moved0 mx my 1 point) ->
    PULL_STRENGTH * CELL_SIZE = 20
    /\ (forall n : nat, magnitude (held moved0 mx my n point) < 20)
    /\ (forall n : nat,
          magnitude (held moved0 mx my n point) < 20 - EPSILON ->
          magnitude (held moved0 mx my n point)
          < magnitude (held moved0 mx my (S n) point))
    /\ (exists N : nat,
          forall n : nat,
            (N <= n)%nat ->
            20 - EPSILON < magnitude (held moved0 mx my n point)).
Proof.
  intros moved0 mx my point Hx Hy Hfirst.
  change (held moved0 mx my 0 point) with point in Hfirst.
  change (held moved0 mx my 1 point)
    with (fst (animate_point moved0 mx my point)) in Hfirst.
  destruct (first_step_lengthens moved0 mx my point Hx Hy Hfirst)
    as (Hg0 & Hg1 & Ho1 & Cx1 & Cy1).
  set (first := fst (animate_point moved0 mx my point)) in *.
  assert (Hlater : forall n, held moved0 mx my (S n) point = hold mx my n first)
    by reflexivity.
  pose proof (hold_on_center mx my first Cx1 Cy1 Hg1 Ho1) as Hinv.
  assert (Hbelow : forall q, 0 < pull_gap q -> magnitude q < 20).
  { intros q Hq. apply magnitude_lt_bound; [lra|]. unfold pull_gap in Hq. nra. }
  split; [unfold PULL_STRENGTH, CELL_SIZE; lra|].
  split; [|split].
  - intros [|n]; [apply Hbelow; exact Hg0|].
    rewrite Hlater. apply Hbelow. apply (Hinv n).
  - intros [|n] Hfar; [exact Hfirst|].
    rewrite !Hlater, hold_S in *.
    destruct (Hinv n) as (Hg & Ho & Cx & Cy & _).
    apply (center_step false mx my (hold mx my n first) Cx Cy Hg Ho).
    exact Hfar.
  - assert (Hlt20 : offsetX first < 20).
    { unfold pull_gap in Hg1. nra. }
    destruct (pow_lt_1_zero 0.8 ltac:(cmp_arith)
                (EPSILON / 20) ltac:(unfold EPSILON; lra)) as [N HN].
    exists (S N). intros [|n] Hn; [lia|].
    rewrite Hlater.
    destruct (Hinv n) as (_ & _ & _ & _ & Hclosed).
    specialize (HN n ltac:(lia)).
    assert (Hpow : 0 < 0.8 ^ n) by (apply pow_lt; lra).
    rewrite Rabs_pos_eq in HN by lra.
    apply magnitude_gt_bound; [unfold EPSILON; lra|].
    rewrite Hclosed. unfold EPSILON in *. nra.
Qed.

Lemma C6_pull_increases_toward_full_pull_witness :
  let point := first_marker 3 1 (written_element 3 1) in
  magnitude (held false 25 25 1 point) < magnitude (held false 25 25 2 point)
  /\ magnitude (held false 25 25 2 point) < 20.
Proof.
  cbv zeta.
  set (point := first_marker 3 1 (written_element 3 1)).
  assert (Hx : 25 = centerX point)
    by (unfold centerX, CELL_SIZE; simpl; lra).
  assert (Hy : 25 = centerY point)
    by (unfold centerY, CELL_SIZE; simpl; lra).
  assert (Hupd : false = true \/ EPSILON < Rabs (offsetX point)
                 \/ EPSILON < Rabs (offsetY point)).
  { right. left. simpl. unfold EPSILON. cmp_arith. }
  destruct (animate_point_on_center false 25 25 point Hx Hy Hupd)
    as (EX & EY & _).
  cbv zeta in EX, EY. simpl offsetX in EX. simpl offsetY in EY.
  assert (E1 : offsetX (held false 25 25 1 point) = 6.4).
  { simpl held. unfold hold. simpl Nat.iter. rewrite EX.
    unfold settle, EPSILON. decide_cmp. lra. }
  assert (E2 : offsetY (held false 25 25 1 point) = 0.8).
  { simpl held. unfold hold. simpl Nat.iter. rewrite EY.
    unfold settle, EPSILON. decide_cmp. lra. }
  assert (Hfirst : magnitude (held false 25 25 0 point)
                   < magnitude (held false 25 25 1 point)).
  { apply magnitude_lt. rewrite E1, E2. simpl. lra. }
  destruct (C6_pull_increases_toward_full_pull false 25 25 point Hx Hy Hfirst)
    as (_ & Hbelow & Hinc & _).
  split; [|apply Hbelow].
  apply Hinc. apply magnitude_lt_bound; [unfold EPSILON; lra|].
  rewrite E1, E2. unfold EPSILON. lra.
Defined.

(** C6, as it is stated, fails.  A marker at rest under an unmoved
    pointer is skipped: with the pointer on its center its displacement
    stays (0,0) (so it is after a resize, which rebuilds the markers at
    rest under a pointer that did not move).  A marker displaced across
    the pull, at (0, 15), goes to (4, 12): its magnitude falls.  And next
    to the full pull the snap of the y axis shortens the displacement:
    from (19.99998, 0.015) the first step lengthens it, to
    (19.999984, 0.012), and the second, which sets the y axis to 0,
    shortens it. *)
Lemma C6_counterexample :
  let rest := first_marker 0 0 fresh_element in
  let across := first_marker 0 15 (written_element 0 15) in
  let near := first_marker 19.99998 0.015 (written_element 19.99998 0.015) in
  (25 = centerX rest /\ 25 = centerY rest
   /\ held false 25 25 1 rest = rest
   /\ ~ magnitude rest < magnitude (held false 25 25 1 rest))
  /\ (25 = centerX across /\ 25 = centerY across
      /\ offsetX (held true 25 25 1 across) = 4
      /\ offsetY (held true 25 25 1 across) = 12
      /\ magnitude (held true 25 25 1 across) < magnitude across)
  /\ (25 = centerX near /\ 25 = centerY near
      /\ magnitude near < magnitude (held false 25 25 1 near)
      /\ offsetX (held false 25 25 2 near) = 19.9999872
      /\ offsetY (held false 25 25 2 near) = 0
      /\ magnitude (held false 25 25 2 near)
         < magnitude (held false 25 25 1 near)).
Proof.
  cbv zeta.
  assert (Hc : forall ox oy e, 25 = centerX (first_marker ox oy e)
                               /\ 25 = centerY (first_marker ox oy e)).
  { intros. unfold centerX, centerY, CELL_SIZE. simpl. split; lra. }
  split; [|split].
  - destruct (Hc 0 0 fresh_element) as [Hx Hy].
    assert (Hskip : held false 25 25 1 (first_marker 0 0 fresh_element)
                    = first_marker 0 0 fresh_element).
    { simpl. rewrite animate_point_skip; [reflexivity|].
      split; simpl; unfold EPSILON; cmp_arith. }
    repeat split; try assumption.
    rewrite Hskip. lra.
  - destruct (Hc 0 15 (written_element 0 15)) as [Hx Hy].
    destruct (animate_point_update true 25 25
                (first_marker 0 15 (written_element 0 15))
                (or_introl eq_refl)) as [EX EY].
    rewrite (target_center _ _ _ Hx Hy), (distance_center _ _ _ Hx Hy)
      in EX, EY.
    simpl fst in EX. simpl snd in EY.
    assert (E4 : offsetX (held true 25 25 1
                            (first_marker 0 15 (written_element 0 15))) = 4).
    { simpl held. unfold hold. simpl Nat.iter. rewrite EX.
      unfold settle, ease, PULL_DISTANCE, PULL_STRENGTH, CELL_SIZE, EPSILON.
      simpl. decide_cmp. lra. }
    assert (E12 : offsetY (held true 25 25 1
                             (first_marker 0 15 (written_element 0 15))) = 12).
    { simpl held. unfold hold. simpl Nat.iter. rewrite EY.
      unfold settle, ease, PULL_DISTANCE, PULL_STRENGTH, CELL_SIZE, EPSILON.
      simpl. decide_cmp. lra. }
    repeat split; try assumption.
    unfold magnitude. rewrite E4, E12. simpl offsetX. simpl offsetY.
    apply sqrt_lt_1_alt. lra.
  - set (near := first_marker 19.99998 0.015 (written_element 19.99998 0.015)).
    destruct (Hc 19.99998 0.015 (written_element 19.99998 0.015)) as [Hx Hy].
    fold near in Hx, Hy.
    assert (Hupd : false = true \/ EPSILON < Rabs (offsetX near)
                   \/ EPSILON < Rabs (offsetY near)).
    { right. left. simpl. unfold EPSILON. cmp_arith. }
    destruct (animate_point_on_center false 25 25 near Hx Hy Hupd)
      as (EX1 & EY1 & Cx1 & Cy1).
    cbv zeta in EX1, EY1, Cx1, Cy1.
    set (one := fst (animate_point false 25 25 near)) in *.
    simpl offsetX in EX1. simpl offsetY in EY1.
    assert (X1 : offsetX one = 19.999984).
    { rewrite EX1. unfold settle, EPSILON. decide_cmp. lra. }
    assert (Y1 : offsetY one = 0.012).
    { rewrite EY1. unfold settle, EPSILON. decide_cmp. lra. }
    assert (Hupd1 : false = true \/ EPSILON < Rabs (offsetX one)
                    \/ EPSILON < Rabs (offsetY one)).
    { right. left. rewrite X1. unfold EPSILON. cmp_arith. }
    destruct (animate_point_on_center false 25 25 one Cx1 Cy1 Hupd1)
      as (EX2 & EY2 & _).
    cbv zeta in EX2, EY2. rewrite X1 in EX2. rewrite Y1 in EY2.
    assert (H1 : held false 25 25 1 near = one) by reflexivity.
    assert (H2 : held false 25 25 2 near = fst (animate_point false 25 25 one))
      by reflexivity.
    assert (X2 : offsetX (held false 25 25 2 near) = 19.9999872).
    { rewrite H2, EX2. unfold settle, EPSILON. decide_cmp. lra. }
    assert (Y2 : offsetY (held false 25 25 2 near) = 0).
    { rewrite H2, EY2. unfold settle, EPSILON. decide_cmp. lra. }
    split; [exact Hx|]. split; [exact Hy|]. split; [|split; [|split]].
    + rewrite H1. apply magnitude_lt. rewrite X1, Y1. simpl. lra.
    + exact X2.
    + exact Y2.
    + apply magnitude_lt. rewrite X2, Y2, H1, X1, Y1. lra.
Qed.

Lemma C3_generateGrid_rows_cols_count_witness :
  exists created : list GridPoint,
    gridPoints (generateGrid (initial 1000 800 [] 0)) = created
    /\ List.length created = 357%nat.
Proof.
  destruct (C3_generateGrid_rows_cols_count CELL_SIZE (initial 1000 800 [] 0))
    as (created & Hp & _ & _ & Hinst).
  - unfold CELL_SIZE. lra.
  - simpl. lra.
  - simpl. lra.
  - exists created. split; [exact Hp|].
    apply Hinst; reflexivity.
Defined.

(** ** The states the page reaches *)

Lemma frame_driver (s : State) :
  Running s \/ Idle s -> Running (frame s) \/ Idle (frame s).
Proof.
  intros [Hrun | Hidle].
  - rewrite (frame_Running s Hrun).
    set (s0 := set_raf (rafLast s) [] s).
    destruct (Nat.eq_dec
                (writes (mouseMoved s0) (mouseX s0) (mouseY s0) (gridPoints s0))
                0) as [Hw | Hw].
    + destruct (mouseMoved s0) eqn:Hm.
      * left.
        destruct (animate_continue s0) as (Ha & Hp & _ & Hi).
        { rewrite Hm. intros [_ H]. discriminate. }
        destruct Hrun as [Hanim _].
        split; [rewrite Ha; exact Hanim | rewrite Hp, Hi; reflexivity].
      * right.
        destruct (animate_stop s0) as (Ha & Hp & _).
        { rewrite Hm. exact Hw. }
        { exact Hm. }
        split; [exact Ha | rewrite Hp; reflexivity].
    + left.
      destruct (animate_continue s0) as (Ha & Hp & _ & Hi).
      { intros [H _]. contradiction. }
      destruct Hrun as [Hanim _].
      split; [rewrite Ha; exact Hanim | rewrite Hp, Hi; reflexivity].
  - right. unfold frame. destruct Hidle as [Ha Hp]. rewrite Hp.
    split; assumption.
Qed.

Lemma startAnimation_driver (s : State) :
  Running s \/ Idle s -> Running (startAnimation s).
Proof.
  intros [Hrun | Hidle].
  - rewrite startAnimation_Running; assumption.
  - apply startAnimation_Idle. exact Hidle.
Qed.

Lemma startAnimation_keeps_nodes (s : State) :
  gridPoints (startAnimation s) = gridPoints s
  /\ gridContainer (startAnimation s) = gridContainer s
  /\ nextNode (startAnimation s) = nextNode s.
Proof.
  unfold startAnimation. destruct (isAnimating s); repeat split.
Qed.

Lemma nodes_allocated_iff (s : State) :
  nodes_allocated s
  <-> Forall (fun n => (n < nextNode s)%nat) (marker_nodes s)
      /\ Forall (fun n => (n < nextNode s)%nat) (gridContainer s).
Proof.
  unfold nodes_allocated, marker_nodes. rewrite Forall_map. reflexivity.
Qed.

Lemma on_resize_nodes_allocated (s : State) :
  nodes_allocated (on_resize s).
Proof.
  destruct (on_resize_grid s) as (Hp & Hc & Hn & _).
  cbv zeta in *.
  assert (H1 : nodes_allocated (generateGrid (discard_grid s))).
  { apply nodes_allocated_iff. unfold marker_nodes.
    rewrite Hp, Hc, Hn, cells_nodes.
    split; apply Forall_forall; intros n Hin; apply in_seq in Hin; lia. }
  unfold on_resize.
  destruct (isAnimating (generateGrid (discard_grid s))); [|exact H1].
  destruct (startAnimation_keeps_nodes (generateGrid (discard_grid s)))
    as (Kp & Kc & Kn).
  unfold nodes_allocated. rewrite Kp, Kc, Kn. exact H1.
Qed.

Lemma on_resize_driver (s : State) :
  Running s \/ Idle s -> Running (on_resize s) \/ Idle (on_resize s).
Proof.
  intros Hinv.
  destruct (on_resize_grid s) as (_ & _ & _ & Hd). cbv zeta in Hd.
  destruct Hinv as [Hrun | Hidle].
  - left. rewrite on_resize_Running by exact Hrun.
    apply (same_driver_Running _ _ Hd Hrun).
  - right. pose proof (same_driver_Idle _ _ Hd Hidle) as Hidle1.
    unfold on_resize. destruct Hidle1 as [Ha Hp]. rewrite Ha.
    split; assumption.
Qed.

(** Every listener and every frame keeps the driver in one of its two
    states and the nodes allocated. *)
Lemma handle_invariant (e : Event) (s : State) :
  (Running s \/ Idle s) /\ nodes_allocated s ->
  (Running (handle e s) \/ Idle (handle e s)) /\ nodes_allocated (handle e s).
Proof.
  intros [Hdrv Halloc]. destruct e as [cx cy | touches | w h |]; simpl.
  - unfold on_mousemove. split.
    + left. apply startAnimation_driver. exact Hdrv.
    + destruct (startAnimation_keeps_nodes (set_mouse cx cy s))
        as (Kp & Kc & Kn).
      unfold nodes_allocated. rewrite Kp, Kc, Kn. exact Halloc.
  - unfold on_touchstart.
    destruct (nth_error touches 0) as [[cx cy]|]; [|split; assumption].
    split.
    + left. apply startAnimation_driver. exact Hdrv.
    + destruct (startAnimation_keeps_nodes (set_mouse cx cy s))
        as (Kp & Kc & Kn).
      unfold nodes_allocated. rewrite Kp, Kc, Kn. exact Halloc.
  - split.
    + apply on_resize_driver. exact Hdrv.
    + apply on_resize_nodes_allocated.
  - split.
    + apply frame_driver. exact Hdrv.
    + apply nodes_allocated_iff. apply nodes_allocated_iff in Halloc.
      destruct (frame_keeps_nodes s) as (Km & Kc & Kn).
      rewrite Km, Kc, Kn. exact Halloc.
Qed.

(** From the start of the page on, the driver is running with exactly its
    own step scheduled, or idle with none; and every node in use was
    allocated. *)
Lemma reachable_invariant (w h : R) (children : list nat) (fresh : nat) :
  Forall (fun n => (n < fresh)%nat) children ->
  forall es : list Event,
    let s := run es (start w h children fresh) in
    (Running s \/ Idle s) /\ nodes_allocated s.
Proof.
  intros Hkids es. cbv zeta. unfold run.
  assert (H0 : (Running (start w h children fresh)
                \/ Idle (start w h children fresh))
               /\ nodes_allocated (start w h children fresh)).
  { unfold start, generateGrid.
    destruct (generateGridWith_spec CELL_SIZE (initial w h children fresh))
      as (Hp & Hc & Hn & Hd).
    cbv zeta in *. split.
    - right. apply (same_driver_Idle _ _ Hd). split; reflexivity.
    - apply nodes_allocated_iff. unfold marker_nodes.
      rewrite Hp, Hc, Hn, map_map. simpl. rewrite !cells_nodes.
      split; [|apply Forall_app; split];
        apply Forall_forall; intros n Hin.
      + apply in_seq in Hin. lia.
      + rewrite Forall_forall in Hkids. specialize (Hkids n Hin). lia.
      + apply in_seq in Hin. lia. }
  revert H0. generalize (start w h children fresh).
  induction es as [|e es IH]; intros s Hs; simpl.
  - exact Hs.
  - apply IH. apply handle_invariant. exact Hs.
Qed.

(** ** The driver without events *)

Lemma mouseMoved_still (s : State) :
  lastMouseX s = mouseX s -> lastMouseY s = mouseY s -> mouseMoved s = false.
Proof.
  intros Hx Hy. unfold mouseMoved. rewrite Hx, Hy.
  replace (mouseX s - mouseX s) with 0 by ring.
  replace (mouseY s - mouseY s) with 0 by ring.
  unfold EPSILON. decide_cmp. reflexivity.
Qed.

Lemma held_S (moved0 : bool) (mx my : R) (n : nat) (point : GridPoint) :
  held moved0 mx my (S n) point
  = fst (animate_point (match n with O => moved0 | S _ => false end) mx my
           (held moved0 mx my n point)).
Proof. destruct n as [|n]; [reflexivity|]. simpl held. apply hold_S. Qed.

(** While the driver runs and no event arrives, the markers after [k]
    frames are the markers held [k] steps, and from the first frame on the
    pointer counts as unmoved. *)
Lemma frames_held (s : State) :
  forall k : nat,
    (forall j : nat, (j < k)%nat -> Running (frames j s)) ->
    gridPoints (frames k s)
    = map (held (mouseMoved s) (mouseX s) (mouseY s) k) (gridPoints s)
    /\ mouseX (frames k s) = mouseX s /\ mouseY (frames k s) = mouseY s
    /\ mouseMoved (frames k s)
       = match k with O => mouseMoved s | S _ => false end.
Proof.
  induction k as [|k IH]; intros Hrun.
  - simpl. rewrite map_id. repeat split.
  - destruct IH as (Hp & Hx & Hy & Hm); [intros j Hj; apply Hrun; lia|].
    assert (Hk : Running (frames k s)) by (apply Hrun; lia).
    change (frames (S k) s) with (frame (frames k s)).
    rewrite (frame_Running _ Hk).
    set (sk := set_raf (rafLast (frames k s)) [] (frames k s)).
    destruct (animate_lastMouse sk) as (Lx & Ly & Mx & My).
    split; [|split; [|split]].
    + rewrite gridPoints_animate.
      change (gridPoints sk) with (gridPoints (frames k s)).
      change (mouseMoved sk) with (mouseMoved (frames k s)).
      change (mouseX sk) with (mouseX (frames k s)).
      change (mouseY sk) with (mouseY (frames k s)).
      rewrite Hp, Hx, Hy, Hm, map_map.
      apply map_ext. intros point. symmetry. apply held_S.
    + rewrite Mx. exact Hx.
    + rewrite My. exact Hy.
    + apply mouseMoved_still; congruence.
Qed.

Lemma held_far_settle_all (moved0 : bool) (mx my : R)
  (points : list GridPoint) :
  (forall point, In point points -> PULL_DISTANCE <= distance_to mx my point) ->
  exists N : nat,
    forall (n : nat) (point : GridPoint),
      (N <= n)%nat -> In point points -> settled (held moved0 mx my n point).
Proof.
  induction points as [|p rest IH]; intros Hfar.
  - exists 0%nat. intros n point _ [].
  - destruct IH as [N1 H1]; [intros q Hq; apply Hfar; right; exact Hq|].
    destruct (held_far_settles moved0 mx my p (Hfar p (or_introl eq_refl)))
      as [N2 H2].
    exists (Nat.max N1 N2). intros n point Hn [<- | Hin].
    + apply H2. lia.
    + apply H1; [lia | exact Hin].
Qed.

Lemma frames_idle_stays (s : State) (k : nat) :
  Idle s -> frames k s = s.
Proof.
  intros [Ha Hp]. induction k as [|k IH]; [reflexivity|].
  change (frames (S k) s) with (frame (frames k s)).
  rewrite IH. unfold frame. rewrite Hp. reflexivity.
Qed.

(** With the pointer out of range of every marker and no event, a running
    driver stops after finitely many frames. *)
Lemma far_pointer_driver_stops (s : State) :
  Running s ->
  (forall point, In point (gridPoints s) ->
                 PULL_DISTANCE <= distance_to (mouseX s) (mouseY s) point) ->
  exists k : nat, Idle (frames k s).
Proof.
  intros Hrun Hfar.
  destruct (held_far_settle_all (mouseMoved s) (mouseX s) (mouseY s)
              (gridPoints s) Hfar) as [N HN].
  assert (Hcases : forall k,
            (exists j, (j <= k)%nat /\ Idle (frames j s))
            \/ (forall j, (j <= k)%nat -> Running (frames j s))).
  { induction k as [|k [[j [Hj Hidle]] | Hall]].
    - right. intros j Hj. replace j with 0%nat by lia. exact Hrun.
    - left. exists j. split; [lia | exact Hidle].
    - destruct (frame_driver (frames k s)) as [Hr | Hi];
        [left; apply Hall; lia | |].
      + right. intros j Hj.
        destruct (Nat.eq_dec j (S k)) as [-> | Hne];
          [exact Hr | apply Hall; lia].
      + left. exists (S k). split; [lia | exact Hi]. }
  destruct (Hcases (S N)) as [[j [_ Hidle]] | Hall].
  - exists j. exact Hidle.
  - exists (S (S N)).
    destruct (frames_held s (S N)) as (Hp & Hx & Hy & Hm);
      [intros j Hj; apply Hall; lia|].
    change (frames (S (S N)) s) with (frame (frames (S N) s)).
    apply frame_settled_idle; [apply Hall; lia | exact Hm |].
    intros point Hin. rewrite Hp in Hin. apply in_map_iff in Hin.
    destruct Hin as (p0 & <- & Hin0). apply HN; [lia | exact Hin0].
Qed.

(** The driver can stop before a marker is at rest: a marker at (0.03, 0),
    written there, moves to (0.0216, 0) without a write, and the step
    stops the driver. *)
Example idle_before_rest :
  let point := first_marker 0.03 0 (written_element 0.03 0) in
  let s := mkState 10000 0 10000 0 true 1 [point] [0%nat] 40 40 1 1 [1%nat] in
  Running s /\ Idle (frame s)
  /\ map offsetX (gridPoints (frame s)) = [0.0216].
Proof.
  cbv zeta.
  set (point := first_marker 0.03 0 (written_element 0.03 0)).
  set (s := mkState 10000 0 10000 0 true 1 [point] [0%nat] 40 40 1 1 [1%nat]).
  assert (Hrun : Running s) by (split; reflexivity).
  assert (Hm : mouseMoved s = false) by (apply mouseMoved_still; reflexivity).
  assert (Hstep : animate_point false 10000 0 point
                  = (mkGridPoint 0 0 0.0216 0 (written_element 0.03 0), false)).
  { unfold animate_point, point.
    rewrite (target_far _ _ _ (first_marker_far _ _ _)).
    replace (Rgeb _ PULL_DISTANCE) with true
      by (symmetry; apply Rgeb_true; apply first_marker_far).
    unfold settle, ease, EPSILON. simpl. decide_cmp. simpl.
    replace ((0.03 + (0 - 0.03) * 0.2) * 0.9) with 0.0216 by lra.
    reflexivity. }
  split; [exact Hrun|].
  rewrite (frame_Running s Hrun).
  set (s0 := set_raf (rafLast s) [] s).
  assert (Hw : writes (mouseMoved s0) (mouseX s0) (mouseY s0) (gridPoints s0)
               = 0%nat).
  { change (mouseMoved s0) with (mouseMoved s). rewrite Hm.
    unfold writes. simpl filter. rewrite Hstep. reflexivity. }
  destruct (animate_stop s0 Hw Hm) as (Ha & Hp & _).
  split; [split; [exact Ha | rewrite Hp; reflexivity]|].
  rewrite gridPoints_animate.
  change (mouseMoved s0) with (mouseMoved s). rewrite Hm.
  simpl. rewrite Hstep. reflexivity.
Qed.

(** * Further properties of the code *)

(** ** The direction and the length of the pull *)

Lemma distance_sq (dx dy : R) :
  0 <= dx * dx + dy * dy
  /\ sqrt (dx * dx + dy * dy) * sqrt (dx * dx + dy * dy) = dx * dx + dy * dy.
Proof.
  assert (H : 0 <= dx * dx + dy * dy) by nra.
  split; [exact H | apply sqrt_sqrt; exact H].
Qed.

Lemma distance_pos (dx dy : R) :
  dx <> 0 \/ dy <> 0 -> 0 < sqrt (dx * dx + dy * dy).
Proof.
  intros H. apply sqrt_lt_R0. destruct H; nra.
Qed.

Lemma sqrt_one_plus_ratio (dx dy : R) :
  dx <> 0 ->
  sqrt (1 + (dy / dx)²) = sqrt (dx * dx + dy * dy) / Rabs dx.
Proof.
  intros Hdx.
  assert (Habs : 0 < Rabs dx) by (apply Rabs_pos_lt; exact Hdx).
  assert (Hsq : Rabs dx * Rabs dx = dx * dx) by
    (unfold Rabs; destruct (Rcase_abs dx); ring).
  replace (1 + (dy / dx)²)
    with ((dx * dx + dy * dy) / (Rabs dx * Rabs dx)).
  - rewrite <- (sqrt_square (Rabs dx)) at 3 by lra.
    apply sqrt_div_alt. nra.
  - rewrite Hsq. unfold Rsqr. field. exact Hdx.
Qed.

(** The cosine and the sine of [Math_atan2 dy dx] are the coordinates of
    the unit vector along [(dx, dy)]. *)
Lemma Math_atan2_direction (dx dy : R) :
  dx <> 0 \/ dy <> 0 ->
  let d := sqrt (dx * dx + dy * dy) in
  cos (Math_atan2 dy dx) = dx / d /\ sin (Math_atan2 dy dx) = dy / d.
Proof.
  intros Hne d.
  assert (Hd : 0 < d) by (apply distance_pos; exact Hne).
  unfold Math_atan2.
  destruct (Rltb 0 dx) eqn:Hpos; [apply Rltb_true in Hpos|apply Rltb_false in Hpos].
  - assert (Hdx : dx <> 0) by lra.
    pose proof (sqrt_one_plus_ratio dx dy Hdx) as Hs. fold d in Hs.
    rewrite Rabs_pos_eq in Hs by lra.
    rewrite cos_atan, sin_atan, Hs. split; field; lra.
  - destruct (Rltb dx 0) eqn:Hneg;
      [apply Rltb_true in Hneg|apply Rltb_false in Hneg].
    + assert (Hdx : dx <> 0) by lra.
      pose proof (sqrt_one_plus_ratio dx dy Hdx) as Hs. fold d in Hs.
      rewrite Rabs_left in Hs by lra.
      destruct (Rgeb dy 0).
      * rewrite neg_cos, neg_sin, cos_atan, sin_atan, Hs. split; field; lra.
      * rewrite cos_minus, sin_minus, cos_PI, sin_PI, cos_atan, sin_atan, Hs.
        split; field; lra.
    + assert (Hdx : dx = 0) by lra. subst dx.
      assert (Hdy : dy <> 0) by (destruct Hne as [H | H]; [lra | exact H]).
      assert (Hd2 : d = Rabs dy).
      { unfold d. replace (0 * 0 + dy * dy) with (Rsqr dy) by (unfold Rsqr; ring).
        apply sqrt_Rsqr_abs. }
      destruct (Rltb 0 dy) eqn:Hyp;
        [apply Rltb_true in Hyp|apply Rltb_false in Hyp].
      * rewrite Rabs_pos_eq in Hd2 by lra.
        rewrite cos_PI2, sin_PI2, Hd2. split; field; lra.
      * assert (Hyn : Rltb dy 0 = true) by (apply Rltb_true; lra).
        rewrite Hyn. rewrite Rabs_left in Hd2 by lra.
        rewrite cos_neg, sin_neg, cos_PI2, sin_PI2, Hd2. split; field; lra.
Qed.

(** The target in terms of the offset of the pointer from the center. *)
Lemma target_in_range (mx my : R) (point : GridPoint) :
  let dx := mx - centerX point in
  let dy := my - centerY point in
  let d := distance_to mx my point in
  0 < d < PULL_DISTANCE ->
  target mx my point
  = (dx / d * pull_force d * CELL_SIZE, dy / d * pull_force d * CELL_SIZE).
Proof.
  intros dx dy d [Hpos Hlt].
  unfold target. fold (centerX point) (centerY point). fold dx dy.
  assert (Ed : d = sqrt (dx * dx + dy * dy)) by reflexivity.
  cbv zeta. rewrite <- Ed.
  apply Rltb_true in Hlt. rewrite Hlt.
  assert (Hne : dx <> 0 \/ dy <> 0).
  { destruct (Req_dec dx 0) as [Hx | Hx]; [|left; exact Hx].
    destruct (Req_dec dy 0) as [Hy | Hy]; [|right; exact Hy].
    exfalso. rewrite Ed, Hx, Hy in Hpos.
    replace (0 * 0 + 0 * 0) with 0 in Hpos by ring.
    rewrite sqrt_0 in Hpos. lra. }
  destruct (Math_atan2_direction dx dy Hne) as [Hc Hs].
  cbv zeta in Hc, Hs. rewrite <- Ed in Hc, Hs.
  rewrite Hc, Hs. reflexivity.
Qed.

(** The target is never longer than the full pull. *)
Lemma target_bounded (mx my : R) (point : GridPoint) :
  let t := target mx my point in
  fst t * fst t + snd t * snd t <= FULL_PULL * FULL_PULL.
Proof.
  cbv zeta. unfold target.
  set (dx := mx - (x point + CELL_SIZE / 2)).
  set (dy := my - (y point + CELL_SIZE / 2)).
  set (d := sqrt (dx * dx + dy * dy)).
  assert (Hd0 : 0 <= d) by apply sqrt_pos.
  unfold FULL_PULL, PULL_STRENGTH, CELL_SIZE.
  destruct (Rltb d PULL_DISTANCE) eqn:Hlt;
    [apply Rltb_true in Hlt | simpl; lra].
  simpl fst. simpl snd.
  set (a := Math_atan2 dy dx).
  pose proof (sin2_cos2 a) as Hsc. unfold Rsqr in Hsc.
  set (F := (1 - d / PULL_DISTANCE) * 0.4 * 50).
  assert (HF : 0 <= F <= 20).
  { unfold F, PULL_DISTANCE in *.
    assert (0 <= d / 600 < 1) by (split; [apply div_nonneg|]; lra).
    lra. }
  replace (cos a * ((1 - d / PULL_DISTANCE) * 0.4) * 50
           * (cos a * ((1 - d / PULL_DISTANCE) * 0.4) * 50)
           + sin a * ((1 - d / PULL_DISTANCE) * 0.4) * 50
             * (sin a * ((1 - d / PULL_DISTANCE) * 0.4) * 50))
    with ((sin a * sin a + cos a * cos a) * (F * F)) by (unfold F; ring).
  rewrite Hsc. nra.
Qed.

Lemma first_marker_distance (a ox oy : R) (e : Element) :
  0 <= a -> distance_to (25 + a) 25 (first_marker ox oy e) = a.
Proof.
  intros Ha. unfold distance_to, first_marker, CELL_SIZE. simpl.
  replace ((25 + a - (0 + 50 / 2)) * (25 + a - (0 + 50 / 2))
           + (25 - (0 + 50 / 2)) * (25 - (0 + 50 / 2)))
    with (a * a) by field.
  apply sqrt_square. exact Ha.
Qed.

(** X5. Within the pull range and off the center, the target
    displacement points from the marker's center to the pointer, and its
    length is the pull at that distance times the cell size: it falls
    linearly from the full pull (20) at the center to 0 at
    [PULL_DISTANCE]. *)
Theorem X5_target_points_to_pointer :
  forall (mx my : R) (point : GridPoint),
    let dx := mx - centerX point in
    let dy := my - centerY point in
    let d := distance_to mx my point in
    let t := target mx my point in
    let F := FULL_PULL * (1 - d / PULL_DISTANCE) in
    0 < d < PULL_DISTANCE ->
    fst t = dx / d * F /\ snd t = dy / d * F
    /\ sqrt (fst t * fst t + snd t * snd t) = F
    /\ 0 < F < FULL_PULL /\ FULL_PULL = 20.
Proof.
  intros mx my point dx dy d t F Hd.
  assert (HF : 0 < F < FULL_PULL /\ FULL_PULL = 20).
  { unfold F, FULL_PULL, PULL_STRENGTH, CELL_SIZE, PULL_DISTANCE in *.
    assert (0 < d / 600 < 1).
    { split; [apply Rdiv_lt_0_compat; lra|].
      apply (Rmult_lt_reg_r 600); [lra|]. unfold Rdiv.
      rewrite Rmult_assoc, Rinv_l by lra. lra. }
    lra. }
  pose proof (target_in_range mx my point Hd) as Ht.
  fold dx dy d t in Ht.
  assert (EF : pull_force d * CELL_SIZE = F).
  { unfold pull_force, F, FULL_PULL. ring. }
  assert (EX : fst t = dx / d * F) by (rewrite Ht; simpl; rewrite <- EF; ring).
  assert (EY : snd t = dy / d * F) by (rewrite Ht; simpl; rewrite <- EF; ring).
  split; [exact EX|]. split; [exact EY|]. split; [|exact HF].
  destruct (distance_sq dx dy) as [_ Hsq].
  assert (Ed : d * d = dx * dx + dy * dy) by exact Hsq.
  replace (fst t * fst t + snd t * snd t) with (F * F).
  - apply sqrt_square. lra.
  - rewrite EX, EY.
    replace (dx / d * F * (dx / d * F) + dy / d * F * (dy / d * F))
      with ((dx * dx + dy * dy) / (d * d) * (F * F)) by (field; lra).
    rewrite <- Ed. field. lra.
Qed.

Lemma X5_target_points_to_pointer_witness :
  fst (target 325 25 (first_marker 0 0 fresh_element)) = 10
  /\ snd (target 325 25 (first_marker 0 0 fresh_element)) = 0.
Proof.
  assert (Hd : distance_to 325 25 (first_marker 0 0 fresh_element) = 300).
  { replace 325 with (25 + 300) by lra. apply first_marker_distance. lra. }
  destruct (X5_target_points_to_pointer 325 25
              (first_marker 0 0 fresh_element)) as (EX & EY & _).
  - rewrite Hd. unfold PULL_DISTANCE. lra.
  - rewrite EX, EY, Hd.
    unfold centerX, centerY, FULL_PULL, PULL_STRENGTH, CELL_SIZE,
      PULL_DISTANCE. simpl. split; lra.
Defined.

(** ** Reflection across the center *)








(** ** What one step keeps *)

Lemma animate_point_within_pull (moved : bool) (mx my : R)
  (point : GridPoint) :
  within_pull point -> within_pull (fst (animate_point moved mx my point)).
Proof.
  intros Hin.
  destruct (animate_point_cases moved mx my point) as [-> | [_ [EX EY]]];
    [exact Hin|].
  unfold within_pull in *. cbv zeta in EX, EY. rewrite EX, EY.
  pose proof (target_bounded mx my point) as Ht. cbv zeta in Ht.
  destruct (target mx my point) as [tx ty]. simpl fst in *. simpl snd in *.
  set (far := Rgeb (distance_to mx my point) PULL_DISTANCE).
  pose proof (settle_sq far (ease (offsetX point) tx)) as Sx.
  pose proof (settle_sq far (ease (offsetY point) ty)) as Sy.
  assert (Heased : ease (offsetX point) tx * ease (offsetX point) tx
                   + ease (offsetY point) ty * ease (offsetY point) ty
                   <= FULL_PULL * FULL_PULL).
  { unfold ease.
    pose proof (Rle_0_sqr (offsetX point - tx)) as Qx.
    pose proof (Rle_0_sqr (offsetY point - ty)) as Qy.
    unfold Rsqr in Qx, Qy. nra. }
  lra.
Qed.

Lemma cell_within_pull (c : R) (row col id : nat) :
  within_pull (cell c row col id).
Proof.
  unfold within_pull, cell, FULL_PULL, PULL_STRENGTH, CELL_SIZE. simpl. lra.
Qed.

Lemma animate_point_in_sync (moved : bool) (mx my : R) (point : GridPoint) :
  in_sync point -> in_sync (fst (animate_point moved mx my point)).
Proof.
  intros Hin. unfold animate_point.
  destruct (target mx my point) as [tx ty].
  destruct (moved || Rgtb (Rabs (offsetX point)) EPSILON
            || Rgtb (Rabs (offsetY point)) EPSILON); [|exact Hin].
  set (far := Rgeb (distance_to mx my point) PULL_DISTANCE).
  set (ox := settle far (ease (offsetX point) tx)).
  set (oy := settle far (ease (offsetY point) ty)).
  destruct (Rgtb (Rabs (ox - parseFloat_or_0 (dataset_ox (element point))))
              EPSILON) eqn:Hx;
    destruct (Rgtb (Rabs (oy - parseFloat_or_0 (dataset_oy (element point))))
                EPSILON) eqn:Hy; simpl orb; cbv iota.
  1-3: unfold in_sync, shownX, shownY; simpl;
    replace (ox - ox) with 0 by ring; replace (oy - oy) with 0 by ring;
    rewrite Rabs_R0; unfold EPSILON;
    repeat split; try discriminate; lra.
  apply Rgtb_false in Hx, Hy.
  destruct Hin as (Ht & Hn & _ & _).
  unfold in_sync, shownX, shownY. simpl.
  repeat split; try assumption; apply Hn; assumption.
Qed.

Lemma cell_in_sync (c : R) (row col id : nat) : in_sync (cell c row col id).
Proof.
  unfold in_sync, shownX, shownY, cell. simpl.
  replace (0 - 0) with 0 by ring. rewrite Rabs_R0. unfold EPSILON.
  repeat split; lra.
Qed.

Lemma animate_point_placement (moved : bool) (mx my : R)
  (point : GridPoint) :
  placement (fst (animate_point moved mx my point)) = placement point.
Proof.
  unfold animate_point.
  destruct (target mx my point) as [tx ty].
  repeat match goal with |- context [if ?c then _ else _] => destruct c end;
    reflexivity.
Qed.

(** ** Invariants of the markers *)

Lemma on_resize_gridPoints (s : State) :
  gridPoints (on_resize s)
  = cells CELL_SIZE (Z.to_nat (colMax CELL_SIZE s)) (nextNode s)
      (Z.to_nat (rowMax CELL_SIZE s) * Z.to_nat (colMax CELL_SIZE s)).
Proof.
  destruct (on_resize_grid s) as (Hp & _). cbv zeta in Hp.
  unfold on_resize.
  destruct (isAnimating (generateGrid (discard_grid s))); [|exact Hp].
  destruct (startAnimation_keeps_nodes (generateGrid (discard_grid s)))
    as (Kp & _).
  rewrite Kp. exact Hp.
Qed.

Lemma frame_gridPoints (s : State) :
  gridPoints (frame s) = gridPoints s
  \/ gridPoints (frame s)
     = map (fun point =>
              fst (animate_point (mouseMoved s) (mouseX s) (mouseY s) point))
         (gridPoints s).
Proof.
  unfold frame. destruct (rafPending s) as [|h rest]; [left; reflexivity|].
  right. apply (gridPoints_animate (set_raf (rafLast s) rest s)).
Qed.

(** A property of markers that holds for the new ones and that a step
    keeps holds for every marker of every state the page reaches. *)
Lemma handle_markers (P : GridPoint -> Prop) :
  (forall row col id, P (cell CELL_SIZE row col id)) ->
  (forall moved mx my point,
      P point -> P (fst (animate_point moved mx my point))) ->
  forall (e : Event) (s : State),
    Forall P (gridPoints s) -> Forall P (gridPoints (handle e s)).
Proof.
  intros Hnew Hstep e s Hs. destruct e as [cx cy | touches | w h |]; simpl.
  - unfold on_mousemove.
    destruct (startAnimation_keeps_nodes (set_mouse cx cy s)) as (Kp & _).
    rewrite Kp. exact Hs.
  - unfold on_touchstart.
    destruct (nth_error touches 0) as [[cx cy]|]; [|exact Hs].
    destruct (startAnimation_keeps_nodes (set_mouse cx cy s)) as (Kp & _).
    rewrite Kp. exact Hs.
  - rewrite on_resize_gridPoints. unfold cells.
    apply Forall_forall. intros point Hin. apply in_map_iff in Hin.
    destruct Hin as (k & <- & _). apply Hnew.
  - destruct (frame_gridPoints s) as [-> | ->]; [exact Hs|].
    apply Forall_forall. intros point Hin. apply in_map_iff in Hin.
    destruct Hin as (p0 & <- & Hin0). apply Hstep.
    rewrite Forall_forall in Hs. apply Hs. exact Hin0.
Qed.

Lemma reachable_markers (P : GridPoint -> Prop) :
  (forall row col id, P (cell CELL_SIZE row col id)) ->
  (forall moved mx my point,
      P point -> P (fst (animate_point moved mx my point))) ->
  forall (w h : R) (children : list nat) (fresh : nat) (es : list Event),
    Forall P (gridPoints (run es (start w h children fresh))).
Proof.
  intros Hnew Hstep w h children fresh es. unfold run.
  assert (H0 : Forall P (gridPoints (start w h children fresh))).
  { unfold start, generateGrid.
    destruct (generateGridWith_spec CELL_SIZE (initial w h children fresh))
      as (Hp & _). cbv zeta in Hp. rewrite Hp. simpl. unfold cells.
    apply Forall_forall. intros point Hin. apply in_map_iff in Hin.
    destruct Hin as (k & <- & _). apply Hnew. }
  revert H0. generalize (start w h children fresh).
  induction es as [|e es IH]; intros s Hs; simpl; [exact Hs|].
  apply IH. apply handle_markers; assumption.
Qed.

Lemma start_40_markers :
  gridPoints (run [Mousemove 30 30] (start 40 40 [] 0))
  = cells CELL_SIZE 2 0 4.
Proof.
  unfold run. simpl fold_left. unfold handle, on_mousemove.
  destruct (startAnimation_keeps_nodes (set_mouse 30 30 (start 40 40 [] 0)))
    as (Kp & _).
  rewrite Kp. simpl gridPoints. unfold start, generateGrid.
  destruct (generateGridWith_spec CELL_SIZE (initial 40 40 [] 0))
    as (Hp & _). cbv zeta in Hp. rewrite Hp.
  unfold rowMax, colMax. simpl innerHeight. simpl innerWidth.
  assert (Hceil : Math_ceil (40 / CELL_SIZE) = 1%Z).
  { unfold Math_ceil, CELL_SIZE. apply Zceil_eq. lra. }
  rewrite Hceil. reflexivity.
Qed.

(** X7. In every state the page reaches, whatever the events, the
    displacement of every marker is no longer than the full pull,
    [PULL_STRENGTH * CELL_SIZE = 20] px. *)
Theorem X7_displacement_never_exceeds_full_pull :
  forall (w h : R) (children : list nat) (fresh : nat) (es : list Event)
         (point : GridPoint),
    In point (gridPoints (run es (start w h children fresh))) ->
    offsetX point * offsetX point + offsetY point * offsetY point <= 20 * 20
    /\ magnitude point <= 20
    /\ Rabs (offsetX point) <= 20 /\ Rabs (offsetY point) <= 20.
Proof.
  intros w h children fresh es point Hin.
  pose proof (reachable_markers within_pull
                (cell_within_pull CELL_SIZE) animate_point_within_pull
                w h children fresh es) as Hall.
  rewrite Forall_forall in Hall. specialize (Hall point Hin).
  unfold within_pull, FULL_PULL, PULL_STRENGTH, CELL_SIZE in Hall.
  assert (Hsq : offsetX point * offsetX point + offsetY point * offsetY point
                <= 20 * 20) by lra.
  split; [exact Hsq|]. split; [|split].
  - unfold magnitude. rewrite <- (sqrt_square 20) by lra.
    apply sqrt_le_1_alt. exact Hsq.
  - apply Rabs_le_iff. split; nra.
  - apply Rabs_le_iff. split; nra.
Qed.

Lemma X7_displacement_never_exceeds_full_pull_witness :
  magnitude (cell CELL_SIZE 1 1 3) <= 20.
Proof.
  apply (X7_displacement_never_exceeds_full_pull 40 40 [] 0
           [Mousemove 30 30] (cell CELL_SIZE 1 1 3)).
  rewrite start_40_markers. simpl. tauto.
Defined.

(** X9. In every state the page reaches, what the screen shows for a
    marker (the translation last written, none before the first write) is
    within [EPSILON] of the marker's displacement on both axes, and the
    cache kept in [dataset] is the written [transform]. *)
Theorem X9_screen_within_epsilon_of_displacement :
  forall (w h : R) (children : list nat) (fresh : nat) (es : list Event)
         (point : GridPoint),
    In point (gridPoints (run es (start w h children fresh))) ->
    Rabs (offsetX point - shownX (element point)) <= EPSILON
    /\ Rabs (offsetY point - shownY (element point)) <= EPSILON
    /\ (transform (element point) = None
        /\ dataset_ox (element point) = None
        /\ dataset_oy (element point) = None
        \/ transform (element point)
           = Some (shownX (element point), shownY (element point))
           /\ dataset_ox (element point) = Some (shownX (element point))
           /\ dataset_oy (element point) = Some (shownY (element point))).
Proof.
  intros w h children fresh es point Hin.
  pose proof (reachable_markers in_sync
                (cell_in_sync CELL_SIZE) animate_point_in_sync
                w h children fresh es) as Hall.
  rewrite Forall_forall in Hall.
  destruct (Hall point Hin) as (Ht & Hn & HX & HY).
  split; [exact HX|]. split; [exact HY|].
  unfold shownX, shownY.
  destruct (dataset_ox (element point)) as [ox|] eqn:Eox;
    destruct (dataset_oy (element point)) as [oy|] eqn:Eoy.
  - right. simpl. repeat split. exact Ht.
  - exfalso. destruct Hn as [_ Hn]. specialize (Hn eq_refl). discriminate.
  - exfalso. destruct Hn as [Hn _]. specialize (Hn eq_refl). discriminate.
  - left. repeat split. exact Ht.
Qed.

Lemma X9_screen_within_epsilon_of_displacement_witness :
  Rabs (offsetX (cell CELL_SIZE 1 1 3) - shownX (element (cell CELL_SIZE 1 1 3)))
  <= EPSILON.
Proof.
  apply (X9_screen_within_epsilon_of_displacement 40 40 [] 0
           [Mousemove 30 30] (cell CELL_SIZE 1 1 3)).
  rewrite start_40_markers. simpl. tauto.
Defined.

(** ** The pointer tracker and the driver *)

(** X1. Pointer events coalesce: of two pointer events with no frame
    between them only the second position is kept, and together they
    schedule what the second alone schedules, at most one step.  A
    touch-start acts as a mouse move to its first touch point, and
    [startAnimation] called twice is [startAnimation] called once. *)
Theorem X1_pointer_events_coalesce :
  forall (s : State) (a b c d : R) (others : list (R * R)),
    on_mousemove c d (on_mousemove a b s) = on_mousemove c d s
    /\ on_touchstart ((c, d) :: others) (on_mousemove a b s)
       = on_mousemove c d s
    /\ on_mousemove c d (on_touchstart ((a, b) :: others) s)
       = on_mousemove c d s
    /\ startAnimation (startAnimation s) = startAnimation s
    /\ (List.length (rafPending (on_mousemove c d s))
        <= S (List.length (rafPending s)))%nat.
Proof.
  intros s a b c d others.
  destruct s as [mx my lx ly anim rid pts kids iw ih nn rl rp].
  unfold on_touchstart, on_mousemove, startAnimation. simpl nth_error.
  cbv iota beta.
  destruct anim; simpl; repeat split; try reflexivity; try lia.
  rewrite length_app. simpl. lia.
Qed.

Lemma handle_driver (e : Event) (s : State) :
  Running s \/ Idle s -> Running (handle e s) \/ Idle (handle e s).
Proof.
  intros Hdrv. destruct e as [cx cy | touches | w h |]; simpl.
  - left. unfold on_mousemove. apply startAnimation_driver. exact Hdrv.
  - unfold on_touchstart.
    destruct (nth_error touches 0) as [[cx cy]|]; [|exact Hdrv].
    left. apply startAnimation_driver. exact Hdrv.
  - apply on_resize_driver. exact Hdrv.
  - apply frame_driver. exact Hdrv.
Qed.

Lemma run_app (es1 es2 : list Event) (s : State) :
  run (es1 ++ es2) s = run es2 (run es1 s).
Proof. unfold run. apply fold_left_app. Qed.

Lemma run_driver (es : list Event) (s : State) :
  Running s \/ Idle s -> Running (run es s) \/ Idle (run es s).
Proof.
  revert s. induction es as [|e es IH]; intros s Hs; simpl; [exact Hs|].
  apply IH. apply handle_driver. exact Hs.
Qed.

Lemma start_Idle (w h : R) (children : list nat) (fresh : nat) :
  Idle (start w h children fresh).
Proof.
  unfold start, generateGrid.
  destruct (generateGridWith_spec CELL_SIZE (initial w h children fresh))
    as (_ & _ & _ & Hd).
  apply (same_driver_Idle _ _ Hd). split; reflexivity.
Qed.

(** X2. From the start of the page on, whatever the events, at most one
    step waits for a frame: either the driver runs and the only step
    scheduled is the one [rafId] names, or it is idle and none is
    scheduled. *)
Theorem X2_at_most_one_step_scheduled :
  forall (w h : R) (children : list nat) (fresh : nat) (es : list Event),
    let s := run es (start w h children fresh) in
    (isAnimating s = true /\ rafPending s = [rafId s]
     \/ isAnimating s = false /\ rafPending s = [])
    /\ (List.length (rafPending s) <= 1)%nat
    /\ (isAnimating s = true <-> rafPending s <> []).
Proof.
  intros w h children fresh es s.
  assert (Hdrv : Running s \/ Idle s).
  { apply run_driver. right. apply start_Idle. }
  split; [exact Hdrv|].
  destruct Hdrv as [[Ha Hp] | [Ha Hp]]; rewrite Ha, Hp; simpl;
    (split; [lia|]); split; intros H; congruence.
Qed.

Lemma handle_pointer (e : Event) (s : State) :
  (mouseX (handle e s), mouseY (handle e s))
  = match event_pointer e with
    | Some position => position
    | None => (mouseX s, mouseY s)
    end.
Proof.
  destruct e as [cx cy | touches | w h |]; simpl.
  - unfold on_mousemove.
    destruct (startAnimation_mouse (set_mouse cx cy s)) as [Hx Hy].
    rewrite Hx, Hy. reflexivity.
  - unfold on_touchstart.
    destruct touches as [|[cx cy] others]; [reflexivity|]. simpl.
    destruct (startAnimation_mouse (set_mouse cx cy s)) as [Hx Hy].
    rewrite Hx, Hy. reflexivity.
  - destruct (on_resize_grid (set_viewport w h s)) as (_ & _ & _ & Hd).
    cbv zeta in Hd. unfold on_resize.
    destruct (isAnimating _).
    + destruct (startAnimation_mouse
                  (generateGrid (discard_grid (set_viewport w h s))))
        as [Hx Hy].
      rewrite Hx, Hy. unfold same_driver in Hd. decompose [and] Hd.
      f_equal; assumption.
    + unfold same_driver in Hd. decompose [and] Hd. f_equal; assumption.
  - unfold frame. destruct (rafPending s) as [|k rest]; [reflexivity|].
    destruct (animate_lastMouse (set_raf (rafLast s) rest s))
      as (_ & _ & Hx & Hy).
    rewrite Hx, Hy. reflexivity.
Qed.

(** X3. The pointer the driver reads is the position of the last mouse
    move or non-empty touch-start, the origin before the first: frames,
    resizes and empty touch-starts never change it. *)
Theorem X3_pointer_is_last_pointer_event :
  forall (es : list Event) (s : State),
    (mouseX (run es s), mouseY (run es s))
    = last_pointer es (mouseX s, mouseY s).
Proof.
  induction es as [|e es IH]; intros s; [reflexivity|].
  unfold run, last_pointer in *. simpl fold_left.
  rewrite IH, handle_pointer. reflexivity.
Qed.

(** ** The grid over the events *)

Lemma positions_cells (c : R) (cols first first' n : nat) :
  positions (cells c cols first n) = positions (cells c cols first' n).
Proof.
  unfold positions, cells. rewrite !map_map. reflexivity.
Qed.

Lemma animate_viewport (s : State) :
  innerWidth (animate s) = innerWidth s
  /\ innerHeight (animate s) = innerHeight s.
Proof.
  unfold animate. rewrite forEach_point_spec.
  destruct (negb _ && negb _); split; reflexivity.
Qed.

Lemma startAnimation_viewport (s : State) :
  innerWidth (startAnimation s) = innerWidth s
  /\ innerHeight (startAnimation s) = innerHeight s.
Proof. unfold startAnimation. destruct (isAnimating s); split; reflexivity. Qed.

Lemma grid_of_viewport_ext (s s' : State) :
  innerWidth s' = innerWidth s -> innerHeight s' = innerHeight s ->
  grid_of_viewport s' = grid_of_viewport s.
Proof.
  intros Hw Hh. unfold grid_of_viewport, rowMax, colMax.
  rewrite Hw, Hh. reflexivity.
Qed.

Lemma animate_positions (s : State) :
  positions (gridPoints (animate s)) = positions (gridPoints s).
Proof.
  unfold positions. rewrite gridPoints_animate, map_map.
  apply map_ext. intros point.
  destruct (animate_point_keeps (mouseMoved s) (mouseX s) (mouseY s) point)
    as (Hx & Hy & _).
  cbv zeta in Hx, Hy. rewrite Hx, Hy. reflexivity.
Qed.

Lemma on_resize_viewport (s : State) :
  innerWidth (on_resize s) = innerWidth s
  /\ innerHeight (on_resize s) = innerHeight s.
Proof.
  destruct (on_resize_grid s) as (_ & _ & _ & Hd). cbv zeta in Hd.
  unfold same_driver in Hd. decompose [and] Hd.
  unfold on_resize. destruct (isAnimating _); [|split; assumption].
  destruct (startAnimation_viewport (generateGrid (discard_grid s)))
    as [Hw Hh].
  rewrite Hw, Hh. split; assumption.
Qed.

Lemma handle_fits_viewport (e : Event) (s : State) :
  positions (gridPoints s) = grid_of_viewport s ->
  positions (gridPoints (handle e s)) = grid_of_viewport (handle e s).
Proof.
  intros Hfit. destruct e as [cx cy | touches | w h |]; simpl.
  - unfold on_mousemove.
    destruct (startAnimation_keeps_nodes (set_mouse cx cy s)) as (Kp & _).
    destruct (startAnimation_viewport (set_mouse cx cy s)) as [Hw Hh].
    rewrite Kp, (grid_of_viewport_ext _ _ Hw Hh). exact Hfit.
  - unfold on_touchstart.
    destruct (nth_error touches 0) as [[cx cy]|]; [|exact Hfit].
    destruct (startAnimation_keeps_nodes (set_mouse cx cy s)) as (Kp & _).
    destruct (startAnimation_viewport (set_mouse cx cy s)) as [Hw Hh].
    rewrite Kp, (grid_of_viewport_ext _ _ Hw Hh). exact Hfit.
  - destruct (on_resize_viewport (set_viewport w h s)) as [Hw Hh].
    rewrite on_resize_gridPoints, (grid_of_viewport_ext _ _ Hw Hh).
    apply positions_cells.
  - unfold frame. destruct (rafPending s) as [|k rest]; [exact Hfit|].
    destruct (animate_viewport (set_raf (rafLast s) rest s)) as [Hw Hh].
    rewrite animate_positions, (grid_of_viewport_ext _ _ Hw Hh).
    exact Hfit.
Qed.

Lemma start_fits_viewport (w h : R) (children : list nat) (fresh : nat) :
  positions (gridPoints (start w h children fresh))
  = grid_of_viewport (start w h children fresh).
Proof.
  unfold start, generateGrid.
  destruct (generateGridWith_spec CELL_SIZE (initial w h children fresh))
    as (Hp & _ & _ & Hd). cbv zeta in Hp, Hd.
  unfold same_driver in Hd. decompose [and] Hd.
  rewrite Hp. simpl app.
  rewrite (grid_of_viewport_ext
             (initial w h children fresh)
             (generateGridWith CELL_SIZE (initial w h children fresh)))
    by assumption.
  apply positions_cells.
Qed.

(** X4. In every state the page reaches the grid is the one of the
    current viewport: the markers are, in row-major order, at the
    positions [(col * 50, row * 50)] of [ceil(innerHeight / 50) + 1] rows
    and [ceil(innerWidth / 50) + 1] columns.  Frames and pointer events
    never move, add or drop a marker, and a resize leaves no marker of
    the old viewport. *)
Theorem X4_grid_fits_current_viewport :
  forall (w h : R) (children : list nat) (fresh : nat) (es : list Event),
    let s := run es (start w h children fresh) in
    let rows := Z.to_nat (Math_ceil (innerHeight s / CELL_SIZE) + 1) in
    let cols := Z.to_nat (Math_ceil (innerWidth s / CELL_SIZE) + 1) in
    positions (gridPoints s)
    = map (fun k => (INR (k mod cols) * CELL_SIZE, INR (k / cols) * CELL_SIZE))
        (seq 0 (rows * cols))
    /\ List.length (gridPoints s) = (rows * cols)%nat.
Proof.
  intros w h children fresh es s rows cols.
  assert (Hfit : positions (gridPoints s) = grid_of_viewport s).
  { unfold s, run. generalize (start_fits_viewport w h children fresh).
    generalize (start w h children fresh).
    induction es as [|e es IH]; intros s0 H0; simpl; [exact H0|].
    apply IH. apply handle_fits_viewport. exact H0. }
  assert (Hpos : positions (gridPoints s)
                 = map (fun k => (INR (k mod cols) * CELL_SIZE,
                                  INR (k / cols) * CELL_SIZE))
                     (seq 0 (rows * cols))).
  { rewrite Hfit. unfold grid_of_viewport, positions, cells.
    rewrite map_map. reflexivity. }
  split; [exact Hpos|].
  apply (f_equal (@List.length (R * R))) in Hpos.
  unfold positions in Hpos. rewrite !length_map, length_seq in Hpos.
  exact Hpos.
Qed.

Lemma run_fits_viewport (w h : R) (children : list nat) (fresh : nat)
  (es : list Event) :
  positions (gridPoints (run es (start w h children fresh)))
  = grid_of_viewport (run es (start w h children fresh)).
Proof.
  unfold run. generalize (start_fits_viewport w h children fresh).
  generalize (start w h children fresh).
  induction es as [|e es IH]; intros s0 H0; simpl; [exact H0|].
  apply IH. apply handle_fits_viewport. exact H0.
Qed.

Lemma Zfloor_quotient_bounds (p c : R) :
  0 < c -> 0 <= p ->
  (0 <= Zfloor (p / c))%Z
  /\ IZR (Zfloor (p / c)) * c <= p < IZR (Zfloor (p / c)) * c + c.
Proof.
  intros Hc Hp.
  destruct (Zfloor_bound (p / c)) as [Hlo Hhi].
  assert (Hq : p = p / c * c) by (field; lra).
  split.
  - apply Zfloor_lub. simpl. apply div_nonneg; assumption.
  - split.
    + rewrite Hq at 2. apply Rmult_le_compat_r; lra.
    + rewrite Hq at 1.
      replace (IZR (Zfloor (p / c)) * c + c)
        with ((IZR (Zfloor (p / c)) + 1) * c) by ring.
      apply Rmult_lt_compat_r; lra.
Qed.

Lemma Zfloor_le_Zceil (p q : R) : p <= q -> (Zfloor p <= Zceil q)%Z.
Proof.
  intros Hpq.
  destruct (Zfloor_bound p) as [Hlo _].
  destruct (Zceil_bound q) as [_ Hhi].
  apply le_IZR. lra.
Qed.

(** X6. In every state the page reaches the grid covers the viewport:
    every point of the viewport, its right and bottom edges included,
    lies in the cell of some marker (the one more row and column than the
    viewport needs are what covers the edges). *)
Theorem X6_grid_covers_viewport :
  forall (w h : R) (children : list nat) (fresh : nat) (es : list Event)
         (px py : R),
    let s := run es (start w h children fresh) in
    0 <= px <= innerWidth s -> 0 <= py <= innerHeight s ->
    exists point : GridPoint,
      In point (gridPoints s)
      /\ x point <= px < x point + CELL_SIZE
      /\ y point <= py < y point + CELL_SIZE.
Proof.
  intros w h children fresh es px py s [Hpx0 Hpx] [Hpy0 Hpy].
  pose proof (run_fits_viewport w h children fresh es) as Hfit.
  fold s in Hfit.
  assert (Hc : 0 < CELL_SIZE) by (unfold CELL_SIZE; lra).
  destruct (Zfloor_quotient_bounds px CELL_SIZE Hc Hpx0) as (Hc0 & Hcx).
  destruct (Zfloor_quotient_bounds py CELL_SIZE Hc Hpy0) as (Hr0 & Hry).
  set (col := Z.to_nat (Zfloor (px / CELL_SIZE))).
  set (row := Z.to_nat (Zfloor (py / CELL_SIZE))).
  set (cols := Z.to_nat (colMax CELL_SIZE s)).
  set (rows := Z.to_nat (rowMax CELL_SIZE s)).
  assert (Hcol : (col < cols)%nat).
  { unfold col, cols, colMax, Math_ceil.
    pose proof (Zfloor_le_Zceil (px / CELL_SIZE) (innerWidth s / CELL_SIZE))
      as Hle.
    assert (px / CELL_SIZE <= innerWidth s / CELL_SIZE)
      by (unfold Rdiv; apply Rmult_le_compat_r;
          [left; apply Rinv_0_lt_compat; exact Hc | exact Hpx]).
    specialize (Hle H). lia. }
  assert (Hrow : (row < rows)%nat).
  { unfold row, rows, rowMax, Math_ceil.
    pose proof (Zfloor_le_Zceil (py / CELL_SIZE) (innerHeight s / CELL_SIZE))
      as Hle.
    assert (py / CELL_SIZE <= innerHeight s / CELL_SIZE)
      by (unfold Rdiv; apply Rmult_le_compat_r;
          [left; apply Rinv_0_lt_compat; exact Hc | exact Hpy]).
    specialize (Hle H). lia. }
  assert (Hin : In (INR col * CELL_SIZE, INR row * CELL_SIZE)
                  (positions (gridPoints s))).
  { rewrite Hfit. unfold grid_of_viewport, positions. fold cols rows.
    apply in_map_iff. exists (cell CELL_SIZE row col (0 + (row * cols + col))).
    split; [reflexivity|].
    apply (nth_error_In _ (row * cols + col)).
    apply nth_error_cells; [exact Hcol | nia]. }
  unfold positions in Hin. apply in_map_iff in Hin.
  destruct Hin as (point & Hxy & Hpoint).
  injection Hxy as Ex Ey.
  exists point. split; [exact Hpoint|].
  rewrite Ex, Ey. unfold col, row.
  rewrite !INR_IZR_INZ, !Z2Nat.id by assumption.
  split; assumption.
Qed.

Lemma X6_grid_covers_viewport_witness :
  exists point : GridPoint,
    In point (gridPoints (run [Mousemove 30 30] (start 40 40 [] 0)))
    /\ x point <= 40 < x point + CELL_SIZE
    /\ y point <= 40 < y point + CELL_SIZE.
Proof.
  assert (Hvp : innerWidth (run [Mousemove 30 30] (start 40 40 [] 0)) = 40
                /\ innerHeight (run [Mousemove 30 30] (start 40 40 [] 0)) = 40).
  { unfold run. simpl fold_left. unfold handle, on_mousemove.
    destruct (startAnimation_viewport (set_mouse 30 30 (start 40 40 [] 0)))
      as [Hw Hh].
    rewrite Hw, Hh. simpl. unfold start, generateGrid.
    destruct (generateGridWith_spec CELL_SIZE (initial 40 40 [] 0))
      as (_ & _ & _ & Hd). unfold same_driver in Hd. decompose [and] Hd.
    split; assumption. }
  destruct Hvp as [Hw Hh].
  apply (X6_grid_covers_viewport 40 40 [] 0 [Mousemove 30 30] 40 40).
  - rewrite Hw. lra.
  - rewrite Hh. lra.
Defined.

Lemma startAnimation_marker_nodes (s : State) :
  marker_nodes (startAnimation s) = marker_nodes s.
Proof.
  unfold marker_nodes.
  destruct (startAnimation_keeps_nodes s) as (Kp & _). rewrite Kp.
  reflexivity.
Qed.

Lemma markers_attached_ext (s s' : State) :
  marker_nodes s' = marker_nodes s ->
  gridContainer s' = gridContainer s ->
  nextNode s' = nextNode s ->
  markers_attached s -> markers_attached s'.
Proof.
  intros Hm Hc Hn. unfold markers_attached. rewrite Hm, Hc, Hn. tauto.
Qed.

Lemma on_resize_markers_attached (s : State) :
  markers_attached (on_resize s).
Proof.
  destruct (on_resize_grid s) as (Hp & Hc & Hn & _). cbv zeta in *.
  set (n := (Z.to_nat (rowMax CELL_SIZE s) * Z.to_nat (colMax CELL_SIZE s))%nat)
    in *.
  assert (H1 : markers_attached (generateGrid (discard_grid s))).
  { assert (Hm : marker_nodes (generateGrid (discard_grid s))
                 = seq (nextNode s) n).
    { unfold marker_nodes. rewrite Hp. apply cells_nodes. }
    exists (nextNode s), n, []. rewrite Hm, Hc, Hn.
    repeat split; [lia | constructor | constructor]. }
  unfold on_resize.
  destruct (isAnimating (generateGrid (discard_grid s))); [|exact H1].
  destruct (startAnimation_keeps_nodes (generateGrid (discard_grid s)))
    as (_ & Kc & Kn).
  apply (markers_attached_ext (generateGrid (discard_grid s)));
    [apply startAnimation_marker_nodes | exact Kc | exact Kn | exact H1].
Qed.

Lemma handle_markers_attached (e : Event) (s : State) :
  markers_attached s -> markers_attached (handle e s).
Proof.
  intros Hs. destruct e as [cx cy | touches | w h |]; simpl.
  - unfold on_mousemove.
    destruct (startAnimation_keeps_nodes (set_mouse cx cy s))
      as (_ & Kc & Kn).
    apply (markers_attached_ext s);
      [apply (startAnimation_marker_nodes (set_mouse cx cy s))
      | exact Kc | exact Kn | exact Hs].
  - unfold on_touchstart.
    destruct (nth_error touches 0) as [[cx cy]|]; [|exact Hs].
    destruct (startAnimation_keeps_nodes (set_mouse cx cy s))
      as (_ & Kc & Kn).
    apply (markers_attached_ext s);
      [apply (startAnimation_marker_nodes (set_mouse cx cy s))
      | exact Kc | exact Kn | exact Hs].
  - apply on_resize_markers_attached.
  - destruct (frame_keeps_nodes s) as (Km & Kc & Kn).
    apply (markers_attached_ext s); assumption.
Qed.

Lemma start_markers_attached (w h : R) (children : list nat) (fresh : nat) :
  NoDup children -> Forall (fun k => (k < fresh)%nat) children ->
  markers_attached (start w h children fresh).
Proof.
  intros Hdistinct Hold.
  unfold start, generateGrid.
  destruct (generateGridWith_spec CELL_SIZE (initial w h children fresh))
    as (Hp & Hc & Hn & _). cbv zeta in *.
  set (n := (Z.to_nat (rowMax CELL_SIZE (initial w h children fresh))
             * Z.to_nat (colMax CELL_SIZE (initial w h children fresh)))%nat)
    in *.
  assert (Hm : marker_nodes (generateGridWith CELL_SIZE
                               (initial w h children fresh))
               = seq fresh n).
  { unfold marker_nodes. rewrite Hp. simpl app. apply cells_nodes. }
  exists fresh, n, children. rewrite Hm, Hn, Hc, map_map, cells_nodes.
  repeat split; [simpl; lia | exact Hdistinct | exact Hold].
Qed.

Lemma run_markers_attached (es : list Event) (s : State) :
  markers_attached s -> markers_attached (run es s).
Proof.
  revert s. induction es as [|e es IH]; intros s Hs; simpl; [exact Hs|].
  apply IH. apply handle_markers_attached. exact Hs.
Qed.

(** X10. When the children the page gave the container are distinct
    nodes allocated before the script runs, then in every state the page
    reaches every marker owns its element: no two markers share a node,
    every marker's node was allocated, the nodes of the markers are the
    last children of the container, in the order of the grid, and no node
    is a child of the container twice, so that every marker's node is
    attached exactly once. *)
Theorem X10_every_marker_attached_once :
  forall (w h : R) (children : list nat) (fresh : nat) (es : list Event),
    NoDup children -> Forall (fun k => (k < fresh)%nat) children ->
    let s := run es (start w h children fresh) in
    NoDup (marker_nodes s)
    /\ NoDup (gridContainer s)
    /\ (exists others : list nat, gridContainer s = others ++ marker_nodes s)
    /\ (forall point : GridPoint,
          In point (gridPoints s) ->
          count_occ Nat.eq_dec (gridContainer s) (node (element point)) = 1%nat
          /\ (node (element point) < nextNode s)%nat).
Proof.
  intros w h children fresh es Hdistinct Hold s.
  assert (Hatt : markers_attached s).
  { apply run_markers_attached. apply start_markers_attached; assumption. }
  destruct Hatt as (first & n & others & Hm & Hle & Hc & Hnd & Hlow).
  assert (Hkids : NoDup (gridContainer s)).
  { rewrite Hc, Hm. apply NoDup_app; [exact Hnd | apply seq_NoDup|].
    intros a Ha Hseq. apply in_seq in Hseq.
    rewrite Forall_forall in Hlow. specialize (Hlow a Ha). lia. }
  split; [rewrite Hm; apply seq_NoDup|].
  split; [exact Hkids|].
  split; [exists others; exact Hc|].
  intros point Hin.
  assert (Hnode : In (node (element point)) (marker_nodes s)).
  { unfold marker_nodes. apply in_map_iff. exists point. split;
      [reflexivity | exact Hin]. }
  split.
  - apply (proj1 (NoDup_count_occ' Nat.eq_dec (gridContainer s)) Hkids).
    rewrite Hc. apply in_or_app. right. exact Hnode.
  - rewrite Hm in Hnode. apply in_seq in Hnode. lia.
Qed.

Lemma X10_every_marker_attached_once_witness :
  NoDup (gridContainer (run [Mousemove 30 30; Resize 1000 800; Frame]
                          (start 40 40 [0%nat; 1%nat] 2)))
  /\ NoDup (gridContainer (start 40 40 [0%nat; 1%nat] 2)).
Proof.
  assert (Hdistinct : NoDup [0%nat; 1%nat]).
  { constructor; [simpl; lia|]. constructor; [simpl; tauto | constructor]. }
  assert (Hold : Forall (fun k => (k < 2)%nat) [0%nat; 1%nat]).
  { repeat constructor. }
  split.
  - apply (X10_every_marker_attached_once 40 40 [0%nat; 1%nat] 2
             [Mousemove 30 30; Resize 1000 800; Frame] Hdistinct Hold).
  - apply (X10_every_marker_attached_once 40 40 [0%nat; 1%nat] 2 []
             Hdistinct Hold).
Defined.

(** ** What a step leaves alone *)

Lemma animate_placements (s : State) :
  map placement (gridPoints (animate s)) = map placement (gridPoints s).
Proof.
  rewrite gridPoints_animate, map_map.
  apply map_ext. intros point. apply animate_point_placement.
Qed.

(** X11. A step changes nothing of the page but the displacements, the
    transforms and their caches: the markers keep their number, their
    order, their rest positions and their elements' node, position and
    text; the children of the container, the viewport, the allocation
    counter and the pointer stay as they are; and the previous-step
    pointer becomes the pointer. *)
Theorem X11_animate_leaves_the_grid_in_place :
  forall s : State,
    map placement (gridPoints (animate s)) = map placement (gridPoints s)
    /\ List.length (gridPoints (animate s)) = List.length (gridPoints s)
    /\ gridContainer (animate s) = gridContainer s
    /\ nextNode (animate s) = nextNode s
    /\ innerWidth (animate s) = innerWidth s
    /\ innerHeight (animate s) = innerHeight s
    /\ mouseX (animate s) = mouseX s /\ mouseY (animate s) = mouseY s
    /\ lastMouseX (animate s) = mouseX s /\ lastMouseY (animate s) = mouseY s.
Proof.
  intros s.
  destruct (animate_keeps_nodes s) as (_ & Kc & Kn).
  destruct (animate_viewport s) as [Kw Kh].
  destruct (animate_lastMouse s) as (Lx & Ly & Mx & My).
  split; [apply animate_placements|].
  split; [rewrite gridPoints_animate; apply length_map|].
  repeat split; assumption.
Qed.

(** ** Resizes *)

Lemma cells_at_rest (c : R) (cols first n : nat) (point : GridPoint) :
  In point (cells c cols first n) ->
  offsetX point = 0 /\ offsetY point = 0
  /\ transform (element point) = None
  /\ dataset_ox (element point) = None /\ dataset_oy (element point) = None.
Proof.
  unfold cells. intros Hin. apply in_map_iff in Hin.
  destruct Hin as (k & <- & _). repeat split.
Qed.

Lemma zero_settled (point : GridPoint) :
  offsetX point = 0 -> offsetY point = 0 -> settled point.
Proof.
  intros Hx Hy. unfold settled. rewrite Hx, Hy, Rabs_R0.
  unfold EPSILON. lra.
Qed.

Lemma on_resize_mouseMoved (s : State) :
  mouseMoved (on_resize s) = mouseMoved s.
Proof.
  destruct (on_resize_grid s) as (_ & _ & _ & Hd). cbv zeta in Hd.
  unfold same_driver in Hd. decompose [and] Hd.
  unfold on_resize, mouseMoved.
  destruct (isAnimating (generateGrid (discard_grid s))) eqn:Ha.
  - unfold startAnimation. rewrite Ha. simpl. congruence.
  - congruence.
Qed.

(** X12. A resize that arrives while the driver is idle rebuilds the grid
    at rest and leaves the driver idle: no step is scheduled, no handle is
    given out, and frames change nothing until a pointer event arrives. *)
Theorem X12_resize_while_idle :
  forall (s : State) (w h : R),
    Idle s ->
    let s' := handle (Resize w h) s in
    Idle s'
    /\ rafLast s' = rafLast s
    /\ gridPoints s'
       = cells CELL_SIZE (Z.to_nat (Math_ceil (w / CELL_SIZE) + 1)) (nextNode s)
           (Z.to_nat (Math_ceil (h / CELL_SIZE) + 1)
            * Z.to_nat (Math_ceil (w / CELL_SIZE) + 1))
    /\ (forall k : nat, frames k s' = s').
Proof.
  intros s w h Hidle s'.
  assert (Hidle0 : Idle (set_viewport w h s)) by exact Hidle.
  destruct (on_resize_grid (set_viewport w h s)) as (_ & _ & _ & Hd).
  cbv zeta in Hd.
  pose proof (same_driver_Idle _ _ Hd Hidle0) as Hidle1.
  assert (Hs' : s' = generateGrid (discard_grid (set_viewport w h s))).
  { unfold s'. simpl. unfold on_resize.
    destruct Hidle1 as [Ha _]. rewrite Ha. reflexivity. }
  assert (Hidle' : Idle s') by (rewrite Hs'; exact Hidle1).
  split; [exact Hidle'|]. split; [|split].
  - rewrite Hs'. unfold same_driver in Hd. decompose [and] Hd. assumption.
  - unfold s'. simpl. apply (on_resize_gridPoints (set_viewport w h s)).
  - intros k. apply frames_idle_stays. exact Hidle'.
Qed.

Lemma X12_resize_while_idle_witness :
  Idle (handle (Resize 1000 800) (initial 40 40 [] 0))
  /\ frames 3 (handle (Resize 1000 800) (initial 40 40 [] 0))
     = handle (Resize 1000 800) (initial 40 40 [] 0).
Proof.
  destruct (X12_resize_while_idle (initial 40 40 [] 0) 1000 800)
    as (Hidle & _ & _ & Hstay).
  - split; reflexivity.
  - split; [exact Hidle | apply Hstay].
Defined.

(** X13. A resize puts every marker back at rest, with no transform.
    When it arrives while the driver runs and the pointer has not moved
    since the last step, the next step skips every marker and stops the
    driver: wherever the pointer is, the new grid stays at rest until the
    pointer moves. *)
Theorem X13_resize_drops_the_pull :
  forall (s : State) (w h : R),
    Running s -> mouseMoved s = false ->
    let s' := handle (Resize w h) s in
    (forall point : GridPoint,
        In point (gridPoints s') ->
        offsetX point = 0 /\ offsetY point = 0
        /\ transform (element point) = None)
    /\ Running s'
    /\ Idle (frame s')
    /\ gridPoints (frame s') = gridPoints s'.
Proof.
  intros s w h Hrun Hm s'.
  assert (Hrun0 : Running (set_viewport w h s)) by exact Hrun.
  assert (Hrest : forall point, In point (gridPoints s') ->
            offsetX point = 0 /\ offsetY point = 0
            /\ transform (element point) = None).
  { intros point Hin. unfold s' in Hin. simpl in Hin.
    rewrite on_resize_gridPoints in Hin.
    destruct (cells_at_rest _ _ _ _ _ Hin) as (Hx & Hy & Ht & _).
    repeat split; assumption. }
  assert (Hrun' : Running s').
  { unfold s'. simpl. rewrite (on_resize_Running _ Hrun0).
    destruct (on_resize_grid (set_viewport w h s)) as (_ & _ & _ & Hd).
    apply (same_driver_Running _ _ Hd Hrun0). }
  assert (Hm' : mouseMoved s' = false).
  { unfold s'. simpl. rewrite on_resize_mouseMoved. exact Hm. }
  split; [exact Hrest|]. split; [exact Hrun'|].
  apply frame_settled_idle; [exact Hrun' | exact Hm' |].
  intros point Hin. destruct (Hrest point Hin) as (Hx & Hy & _).
  apply zero_settled; assumption.
Qed.

Lemma X13_resize_drops_the_pull_witness :
  let s := mkState 25 25 25 25 true 1 [first_marker 19 0 (written_element 19 0)]
             [0%nat] 40 40 1 1 [1%nat] in
  Idle (frame (handle (Resize 1000 800) s)).
Proof.
  cbv zeta.
  destruct (X13_resize_drops_the_pull
              (mkState 25 25 25 25 true 1
                 [first_marker 19 0 (written_element 19 0)]
                 [0%nat] 40 40 1 1 [1%nat]) 1000 800)
    as (_ & _ & Hidle & _).
  - split; reflexivity.
  - apply mouseMoved_still; reflexivity.
  - exact Hidle.
Defined.

(** ** The one-step lag of the pointer *)

(** X14. A step that sees the pointer moved always schedules the next
    step, whether it wrote to a marker or not; and after any step the
    pointer counts as unmoved, until the next pointer event.  So a driver
    started by a pointer event runs two steps at least. *)
Theorem X14_moved_pointer_costs_one_more_step :
  forall s : State,
    (Running s ->
     mouseMoved (frame s) = false
     /\ (mouseMoved s = true ->
         Running (frame s) /\ rafPending (frame s) = [S (rafLast s)]))
    /\ (Idle s ->
        forall cx cy : R,
          EPSILON < Rabs (cx - lastMouseX s) ->
          Running (frame (on_mousemove cx cy s))
          /\ mouseMoved (frame (on_mousemove cx cy s)) = false).
Proof.
  assert (Hstill : forall s0, Running s0 -> mouseMoved (frame s0) = false).
  { intros s0 H0. rewrite (frame_Running s0 H0).
    destruct (animate_lastMouse (set_raf (rafLast s0) [] s0))
      as (Lx & Ly & Mx & My).
    apply mouseMoved_still; congruence. }
  assert (Hgo : forall s0, Running s0 -> mouseMoved s0 = true ->
            Running (frame s0) /\ rafPending (frame s0) = [S (rafLast s0)]).
  { intros s0 H0 Hm. rewrite (frame_Running s0 H0).
    destruct (animate_continue (set_raf (rafLast s0) [] s0))
      as (Ha & Hp & _ & Hi).
    { intros [_ H]. change (mouseMoved s0 = false) in H. congruence. }
    destruct H0 as [Hanim _].
    split; [split|]; [rewrite Ha; exact Hanim | rewrite Hp, Hi; reflexivity
                     | exact Hp]. }
  intros s. split.
  - intros Hrun. split; [apply Hstill; exact Hrun | apply Hgo; exact Hrun].
  - intros Hidle cx cy Hjump.
    assert (Hrun : Running (on_mousemove cx cy s)).
    { unfold on_mousemove. apply startAnimation_Idle. exact Hidle. }
    split; [|apply Hstill; exact Hrun].
    apply Hgo; [exact Hrun|].
    destruct s as [mx my lx ly anim rid pts kids iw ih nn rl rp].
    destruct Hidle as [Ha _]. simpl in Ha, Hjump. subst anim.
    unfold on_mousemove, startAnimation, mouseMoved. simpl.
    replace (Rgtb (Rabs (cx - lx)) EPSILON) with true
      by (symmetry; apply Rgtb_true; lra).
    reflexivity.
Qed.

Lemma X14_moved_pointer_costs_one_more_step_witness :
  Running (frame (on_mousemove 500 25 (initial 40 40 [] 0)))
  /\ mouseMoved (frame (on_mousemove 500 25 (initial 40 40 [] 0))) = false.
Proof.
  destruct (X14_moved_pointer_costs_one_more_step (initial 40 40 [] 0))
    as (_ & Hidle).
  apply Hidle.
  - split; reflexivity.
  - simpl. unfold EPSILON. cmp_arith.
Defined.

(** ** Out of range and in range *)

Lemma frames_add (j k : nat) (s : State) :
  frames (j + k) s = frames j (frames k s).
Proof. unfold frames. apply Nat.iter_add. Qed.

(** X15. With the pointer out of range of every marker and no further
    event, a running driver stops after finitely many frames, and from
    then on frames change nothing: the animation loop ends. *)
Theorem X15_far_pointer_loop_ends :
  forall s : State,
    Running s ->
    (forall point : GridPoint,
        In point (gridPoints s) ->
        PULL_DISTANCE <= distance_to (mouseX s) (mouseY s) point) ->
    exists k : nat,
      Idle (frames k s)
      /\ forall j : nat, (k <= j)%nat -> frames j s = frames k s.
Proof.
  intros s Hrun Hfar.
  destruct (far_pointer_driver_stops s Hrun Hfar) as [k Hk].
  exists k. split; [exact Hk|].
  intros j Hj. replace j with ((j - k) + k)%nat by lia.
  rewrite frames_add. apply frames_idle_stays. exact Hk.
Qed.

Lemma X15_far_pointer_loop_ends_witness :
  exists k : nat,
    Idle (frames k (mkState 10000 0 25 25 true 1
                      [first_marker 5 3 (written_element 5 3)]
                      [0%nat] 40 40 1 1 [1%nat])).
Proof.
  destruct (X15_far_pointer_loop_ends
              (mkState 10000 0 25 25 true 1
                 [first_marker 5 3 (written_element 5 3)]
                 [0%nat] 40 40 1 1 [1%nat])) as (k & Hk & _).
  - split; reflexivity.
  - intros point [<- | []]. apply first_marker_far.
  - exists k. exact Hk.
Defined.

Lemma settle_far_sign (offset : R) :
  0 <= settle true (ease offset 0) * offset.
Proof.
  unfold settle, ease.
  destruct (Rgtb (Rabs (offset + (0 - offset) * 0.2)) EPSILON); nra.
Qed.

(** X16. Out of the pull range a step never moves a marker away from
    rest: on each axis the displacement keeps its sign and does not grow,
    and when the update is not skipped it shrinks to 0.72 of what it was,
    or to 0. *)
Theorem X16_far_step_never_grows :
  forall (moved : bool) (mx my : R) (point : GridPoint),
    PULL_DISTANCE <= distance_to mx my point ->
    let point' := fst (animate_point moved mx my point) in
    Rabs (offsetX point') <= Rabs (offsetX point)
    /\ Rabs (offsetY point') <= Rabs (offsetY point)
    /\ 0 <= offsetX point' * offsetX point
    /\ 0 <= offsetY point' * offsetY point
    /\ (moved = true \/ EPSILON < Rabs (offsetX point)
        \/ EPSILON < Rabs (offsetY point) ->
        (offsetX point' = 0.72 * offsetX point \/ offsetX point' = 0)
        /\ (offsetY point' = 0.72 * offsetY point \/ offsetY point' = 0)).
Proof.
  intros moved mx my point Hfar point'.
  assert (Hupdated :
            moved = true \/ EPSILON < Rabs (offsetX point)
            \/ EPSILON < Rabs (offsetY point) ->
            offsetX point' = settle true (ease (offsetX point) 0)
            /\ offsetY point' = settle true (ease (offsetY point) 0)).
  { intros Hupd. apply animate_point_far; assumption. }
  assert (Hform : forall o, settle true (ease o 0) = 0.72 * o
                            \/ settle true (ease o 0) = 0).
  { intros o. unfold settle, ease.
    destruct (Rgtb (Rabs (o + (0 - o) * 0.2)) EPSILON);
      [left; lra | right; reflexivity]. }
  destruct (animate_point_cases moved mx my point) as [Hskip | [Hupd _]].
  - unfold point'. rewrite Hskip. simpl fst.
    repeat split; try lra; try nra.
    + destruct (Hupdated H) as [EX _]. unfold point' in EX.
      rewrite Hskip in EX. simpl fst in EX.
      right. destruct (Hform (offsetX point)); lra.
    + destruct (Hupdated H) as [_ EY]. unfold point' in EY.
      rewrite Hskip in EY. simpl fst in EY.
      right. destruct (Hform (offsetY point)); lra.
  - destruct (Hupdated Hupd) as [EX EY]. rewrite EX, EY.
    pose proof (settle_far_shrinks (offsetX point)).
    pose proof (settle_far_shrinks (offsetY point)).
    pose proof (Rabs_pos (offsetX point)).
    pose proof (Rabs_pos (offsetY point)).
    repeat split; try lra; try apply settle_far_sign; apply Hform.
Qed.

Lemma X16_far_step_never_grows_witness :
  Rabs (offsetX (fst (animate_point true 10000 0
                        (first_marker 5 (-3) fresh_element))))
  <= Rabs 5.
Proof.
  destruct (X16_far_step_never_grows true 10000 0
              (first_marker 5 (-3) fresh_element)
              (first_marker_far 5 (-3) fresh_element)) as (HX & _).
  exact HX.
Defined.

Lemma settle_near_target (offset t : R) :
  Rabs (settle false (ease offset t) - t)
  <= 0.8 * Rabs (offset - t) + EPSILON
  /\ (EPSILON < Rabs (offset + (t - offset) * 0.2) ->
      settle false (ease offset t) - t = 0.8 * (offset - t)).
Proof.
  unfold settle, ease, EPSILON.
  destruct (Rgtb (Rabs (offset + (t - offset) * 0.2)) 0.01) eqn:H;
    [apply Rgtb_true in H | apply Rgtb_false in H];
    (split; [|intros; lra]); split_Rabs.
Qed.

(** X17. Within the pull range an update that is not skipped brings each
    axis of the displacement to within 0.8 of its former distance from
    the target, plus [EPSILON]: it is eased 20% of the way, and only a
    value within [EPSILON] of zero is replaced, by zero. *)
Theorem X17_in_range_step_approaches_target :
  forall (moved : bool) (mx my : R) (point : GridPoint),
    distance_to mx my point < PULL_DISTANCE ->
    moved = true \/ EPSILON < Rabs (offsetX point)
    \/ EPSILON < Rabs (offsetY point) ->
    let point' := fst (animate_point moved mx my point) in
    let t := target mx my point in
    Rabs (offsetX point' - fst t)
    <= 0.8 * Rabs (offsetX point - fst t) + EPSILON
    /\ Rabs (offsetY point' - snd t)
       <= 0.8 * Rabs (offsetY point - snd t) + EPSILON
    /\ (EPSILON < Rabs (offsetX point + (fst t - offsetX point) * 0.2) ->
        offsetX point' - fst t = 0.8 * (offsetX point - fst t))
    /\ (EPSILON < Rabs (offsetY point + (snd t - offsetY point) * 0.2) ->
        offsetY point' - snd t = 0.8 * (offsetY point - snd t)).
Proof.
  intros moved mx my point Hin Hupd point' t.
  destruct (animate_point_update moved mx my point Hupd) as [EX EY].
  fold point' t in EX, EY.
  apply Rgeb_false in Hin. rewrite Hin in EX, EY.
  rewrite EX, EY.
  destruct (settle_near_target (offsetX point) (fst t)) as [BX QX].
  destruct (settle_near_target (offsetY point) (snd t)) as [BY QY].
  repeat split; assumption.
Qed.

Lemma X17_in_range_step_approaches_target_witness :
  let point := first_marker 0 0 fresh_element in
  Rabs (offsetX (fst (animate_point true 325 25 point))
        - fst (target 325 25 point))
  <= 0.8 * Rabs (offsetX point - fst (target 325 25 point)) + EPSILON.
Proof.
  cbv zeta.
  destruct (X17_in_range_step_approaches_target true 325 25
              (first_marker 0 0 fresh_element)) as (HX & _).
  - replace 325 with (25 + 300) by lra.
    rewrite first_marker_distance by lra. unfold PULL_DISTANCE. lra.
  - left. reflexivity.
  - exact HX.
Defined.
